(** * Geometric transformations of images (06_Image_Transformations/transformation.py)

    A shallow embedding of the transformation script: the numpy and OpenCV
    calls it makes, the values it computes from the image dimensions, and the
    properties of the resulting rasters.

    Numbers: Python integers are [Z]; the script's floating-point values
    (angles, cosines, matrix coefficients) are idealised to exact reals [R],
    so rounding error of float32/float64 is not part of the model. *)

From Stdlib Require Import String Reals Lra Lia ZArith Bool List.
Import ListNotations.

Local Open Scope R_scope.

(** ** numpy *)

Module np.

(** [np.deg2rad(x)]: [x * pi / 180]. *)
Definition deg2rad (x : R) : R := x * (PI / 180).

(** [np.ceil(x)]: the least integer not below [x], still a float. *)
Definition ceil (x : R) : R := IZR (Zceil x).

Definition cos : R -> R := Rtrigo_def.cos.
Definition sin : R -> R := Rtrigo_def.sin.

End np.

(** ** Python built-ins *)

(** [int(x)] on a float truncates towards zero. *)
Definition int (x : R) : Z :=
  if Rle_dec 0 x then Zfloor x else Zceil x.

(** [a % b] for a positive [b]: the result has the sign of the divisor,
    [a - b * floor(a / b)]. *)
Definition pymod (a b : R) : R := a - b * IZR (Zfloor (a / b)).

(** [a // b] on integers is floor division, which is [Z.div]. *)
Definition floordiv (a b : Z) : Z := (a / b)%Z.

(** ** Dimensions of the rotated canvas (lines 169-173) *)

Definition teta_rad (teta : R) : R := np.deg2rad (pymod teta 90).

Definition width_r (width height : Z) (teta : R) : Z :=
  int (np.ceil (IZR width * np.cos (teta_rad teta)
                + IZR height * np.sin (teta_rad teta))).

Definition height_r (width height : Z) (teta : R) : Z :=
  int (np.ceil (IZR width * np.sin (teta_rad teta)
                + IZR height * np.cos (teta_rad teta))).

Definition center (width height : Z) : Z * Z :=
  (floordiv width 2, floordiv height 2).

Definition center_r (width height : Z) (teta : R) : Z * Z :=
  (floordiv (width_r width height teta) 2,
   floordiv (height_r width height teta) 2).

(** The spec's wording of the sizing rule: [n] is the ceiling of [x]. *)
Definition is_ceiling (x : R) (n : Z) : Prop := IZR n - 1 < x <= IZR n.

(** The reduced angle in degrees, as the spec words it: the representative of
    [angle] modulo 90 in [0, 90). *)
Definition is_reduced_angle (angle r : R) : Prop :=
  0 <= r < 90 /\ exists k : Z, angle = r + 90 * IZR k.


(** ** Rasters

    [cv2.imread] yields a numpy array of shape (height, width, 3) with one
    unsigned byte per channel, in B, G, R order.  A raster is the list of its
    rows, a row the list of its pixels. *)

Definition Pixel : Type := (Z * Z * Z)%type.

Definition Raster : Type := list (list Pixel).

Definition rows (img : Raster) : Z := Z.of_nat (length img).

Definition cols (img : Raster) : Z := Z.of_nat (length (hd [] img)).

(** [img.shape[:2]], that is (height, width). *)
Definition shape (img : Raster) : Z * Z := (rows img, cols img).

(** numpy arrays are rectangular and, when they come out of [cv2.imread],
    have at least one row and one column. *)
Definition is_array (img : Raster) : bool :=
  forallb (fun row => Nat.eqb (length row) (length (hd [] img))) img
  && (0 <? rows img)%Z && (0 <? cols img)%Z.

(** [img[y, x]] for non-negative indices; [None] stands for IndexError. *)
Definition pixel_at (img : Raster) (x y : Z) : option Pixel :=
  if ((0 <=? x) && (0 <=? y))%Z
  then match nth_error img (Z.to_nat y) with
       | Some row => nth_error row (Z.to_nat x)
       | None => None
       end
  else None.

(** ** Affine matrices

    A 2x3 array of floats [[a, b, tx], [c, d, ty]]. *)

Record Matrix : Type := mkMatrix
  { m00 : R; m01 : R; m02 : R;
    m10 : R; m11 : R; m12 : R }.

Definition Point : Type := (R * R)%type.

(** The point [(a x + b y + tx, c x + d y + ty)] that [M] sends [(x, y)] to. *)
Definition transform_point (M : Matrix) (p : Point) : Point :=
  (m00 M * fst p + m01 M * snd p + m02 M,
   m10 M * fst p + m11 M * snd p + m12 M).

Definition det (M : Matrix) : R := m00 M * m11 M - m01 M * m10 M.

(** ** Exceptions

    The script raises FileNotFoundError itself when the image cannot be read
    (line 70); OpenCV raises [cv2.error] when one of its assertions fails.
    There is no other exception in the script. *)

Inductive exception : Type :=
| FileNotFoundError (filename : string)
| cv2_error.

Inductive result (A : Type) : Type :=
| Ok (a : A)
| Raise (e : exception).

Arguments Ok {A} a.
Arguments Raise {A} e.

Definition bind {A B : Type} (r : result A) (k : A -> result B) : result B :=
  match r with
  | Ok a => k a
  | Raise e => Raise e
  end.

Notation "x <- r ;; k" := (bind r (fun x => k))
  (at level 61, r at next level, right associativity).

(** ** OpenCV *)

Module cv2.

(** [cv2.getRotationMatrix2D(center, angle, scale)], with the angle in
    degrees:
      [[ a, b, (1 - a) cx - b cy ],
       [-b, a, b cx + (1 - a) cy ]]   a = scale cos angle, b = scale sin angle. *)
Definition getRotationMatrix2D (center : Point) (angle scale : R) : Matrix :=
  let alpha := scale * np.cos (np.deg2rad angle) in
  let beta := scale * np.sin (np.deg2rad angle) in
  mkMatrix alpha beta ((1 - alpha) * fst center - beta * snd center)
           (- beta) alpha (beta * fst center + (1 - alpha) * snd center).

(** The default [borderValue] of [warpAffine] with BORDER_CONSTANT. *)
Definition borderValue : Pixel := (0, 0, 0)%Z.

(** A source sample, the border value outside the source. *)
Definition sample (src : Raster) (x y : Z) : Pixel :=
  match pixel_at src x y with
  | Some p => p
  | None => borderValue
  end.

(** One channel of bilinear interpolation between the four neighbours,
    rounded to the nearest integer. *)
Definition blend (fx fy : R) (p00 p10 p01 p11 : Z) : Z :=
  Zfloor ((1 - fx) * (1 - fy) * IZR p00 + fx * (1 - fy) * IZR p10
          + (1 - fx) * fy * IZR p01 + fx * fy * IZR p11 + 1 / 2).

(** INTER_LINEAR, the default interpolation of [warpAffine], at the source
    coordinate [p].  Coordinates and weights are exact reals here; at
    integer source coordinates OpenCV's fixed-point weights give the same
    sample. *)
Definition bilinear (src : Raster) (p : Point) : Pixel :=
  let x0 := Zfloor (fst p) in
  let y0 := Zfloor (snd p) in
  let fx := fst p - IZR x0 in
  let fy := snd p - IZR y0 in
  let '(b00, g00, r00) := sample src x0 y0 in
  let '(b10, g10, r10) := sample src (x0 + 1) y0 in
  let '(b01, g01, r01) := sample src x0 (y0 + 1) in
  let '(b11, g11, r11) := sample src (x0 + 1) (y0 + 1) in
  (blend fx fy b00 b10 b01 b11,
   blend fx fy g00 g10 g01 g11,
   blend fx fy r00 r10 r01 r11).

(** The matrix [warpAffine] maps destination coordinates back with.  A zero
    determinant is not an error: its reciprocal is taken to be zero. *)
Definition invert (M : Matrix) : Matrix :=
  let D := det M in
  let D := if Req_dec_T D 0 then 0 else 1 / D in
  let A11 := m11 M * D in
  let A22 := m00 M * D in
  let A12 := m01 M * - D in
  let A21 := m10 M * - D in
  mkMatrix A11 A12 (- A11 * m02 M - A12 * m12 M)
           A21 A22 (- A21 * m02 M - A22 * m12 M).

(** The destination rows: pixel (u, v) is the source sampled at the inverse
    image of (u, v). *)
Definition remap (src : Raster) (A : Matrix) (w h : nat) : Raster :=
  map (fun v =>
         map (fun u =>
                bilinear src (transform_point A (INR u, INR v)))
             (seq 0 w))
      (seq 0 h).

(** [cv2.flip(src, flipCode)]: 0 reverses the order of the rows (a flip
    around the x axis), a positive code reverses every row (around the
    y axis), a negative code does both. *)
Definition flip (src : Raster) (flipCode : Z) : Raster :=
  if (flipCode =? 0)%Z then rev src
  else if (0 <? flipCode)%Z then map (@rev Pixel) src
       else rev (map (@rev Pixel) src).

(** [cv2.warpAffine(src, M, dsize)] with the default flags (INTER_LINEAR,
    BORDER_CONSTANT, border value 0).  An empty source fails an assertion;
    an empty [dsize] stands for the size of the source. *)
Definition warpAffine (src : Raster) (M : Matrix) (dsize : Z * Z)
  : result Raster :=
  if ((0 <? cols src) && (0 <? rows src))%Z
  then
    let size :=
      if ((fst dsize <=? 0) || (snd dsize <=? 0))%Z
      then (cols src, rows src) else dsize in
    Ok (remap src (invert M) (Z.to_nat (fst size)) (Z.to_nat (snd size)))
  else Raise cv2_error.

End cv2.

(** ** The script

    Each block of [main] that computes an image, as a function of the image
    it starts from and of the numbers the script fixes in variables. *)

(** Lines 66-70: the image is loaded or FileNotFoundError is raised. *)
Definition original (imread : string -> option Raster) (image_path : string)
  : result Raster :=
  match imread image_path with
  | Some img => Ok img
  | None => Raise (FileNotFoundError image_path)
  end.

(** [np.float32([[1, 0, Tx], [0, 1, Ty]])] (lines 94, 108, 115, 120, 176). *)
Definition M_translation (Tx Ty : Z) : Matrix :=
  mkMatrix 1 0 (IZR Tx) 0 1 (IZR Ty).

(** Lines 92-96: translation into a canvas of the size of the source. *)
Definition translated (Tx Ty : Z) (img : Raster) : result Raster :=
  let '(height, width) := shape img in
  cv2.warpAffine img (M_translation Tx Ty) (width, height).

(** Lines 151-153: rotation about the centre of the image, same canvas. *)
Definition M_rotation (c : Z * Z) (angle : R) : Matrix :=
  cv2.getRotationMatrix2D (IZR (fst c), IZR (snd c)) angle 1.

Definition rotated (angle : R) (img : Raster) : result Raster :=
  let '(height, width) := shape img in
  cv2.warpAffine img (M_rotation (center width height) angle) (width, height).

(** Lines 169-181: rotation without loss.  The canvas is sized with the
    reduced angle, the image is moved to the centre of the canvas (line 176)
    and then rotated by [teta] about that centre (line 180). *)
Definition M_center (width height : Z) (teta : R) : Matrix :=
  M_translation (fst (center_r width height teta) - fst (center width height))
                (snd (center_r width height teta) - snd (center width height)).

Definition rotated_r (teta : R) (img : Raster) : result Raster :=
  let '(height, width) := shape img in
  let dsize := (width_r width height teta, height_r width height teta) in
  rotated <- cv2.warpAffine img (M_center width height teta) dsize ;;
  cv2.warpAffine rotated (M_rotation (center_r width height teta) teta) dsize.

(** Where the two matrices of [rotated_r] send the source coordinate [p]. *)
Definition rotated_r_point (width height : Z) (teta : R) (p : Point) : Point :=
  transform_point (M_rotation (center_r width height teta) teta)
                  (transform_point (M_center width height teta) p).

(** Lines 204-208: resizing by [scale]. *)
Definition M_scale (scale : R) : Matrix :=
  mkMatrix (1 * scale) 0 0 0 (1 * scale) 0.

Definition resized (scale : R) (img : Raster) : result Raster :=
  let '(height, width) := shape img in
  let width_r := int (np.ceil (IZR width * scale)) in
  let height_r := int (np.ceil (IZR height * scale)) in
  cv2.warpAffine img (M_scale scale) (width_r, height_r).

(** Lines 230-233: reflection.  The names of the flip codes are those of the
    comment above the call: 1 reflects horizontally, 0 vertically and -1 in
    both directions. *)
Inductive axis : Type := horizontal | vertical | both.

Definition flipCode (a : axis) : Z :=
  match a with
  | horizontal => 1
  | vertical => 0
  | both => -1
  end.

Definition reflected (a : axis) (img : Raster) : Raster :=
  cv2.flip img (flipCode a).


(** ** The array store

    Python variables hold references to numpy arrays.  The store lists the
    arrays allocated so far, a reference is a position in it.  An OpenCV
    call whose [dst] argument is omitted reads its source array and returns
    a reference to an array it allocates; when it raises, nothing is
    allocated. *)

Definition ref : Type := nat.

Definition store : Type := list Raster.

Definition deref (s : store) (r : ref) : Raster := nth r s [].

Definition prog (A : Type) : Type := store -> result A * store.

Definition call (f : Raster -> result Raster) (src : ref) : prog ref :=
  fun s =>
    match f (deref s src) with
    | Ok dst => (Ok (length s), s ++ [dst])
    | Raise e => (Raise e, s)
    end.

Definition and_then (p : prog ref) (k : ref -> prog ref) : prog ref :=
  fun s =>
    match p s with
    | (Ok r, s') => k r s'
    | (Raise e, s') => (Raise e, s')
    end.

(** The four kinds of transformation of the tutorial (lines 15-18), with the
    two rotations about the centre. *)
Inductive transformation : Type :=
| Translation (Tx Ty : Z)
| Rotation (angle : R)
| RotationNoLoss (teta : R)
| Dilation (scale : R)
| Reflection (a : axis).

(** The statements of [main] for each of them, on references. *)
Definition run (t : transformation) (src : ref) : prog ref :=
  match t with
  | Translation Tx Ty => call (translated Tx Ty) src
  | Rotation angle => call (rotated angle) src
  | RotationNoLoss teta =>
      fun s =>
        let '(height, width) := shape (deref s src) in
        let dsize := (width_r width height teta, height_r width height teta) in
        and_then
          (call (fun img =>
                   cv2.warpAffine img (M_center width height teta) dsize) src)
          (fun rotated =>
             call (fun img =>
                     cv2.warpAffine img
                       (M_rotation (center_r width height teta) teta) dsize)
                  rotated)
          s
  | Dilation scale => call (resized scale) src
  | Reflection a => call (fun img => Ok (reflected a img)) src
  end.

(** The image each transformation computes, on values. *)
Definition transformed (t : transformation) (img : Raster) : result Raster :=
  match t with
  | Translation Tx Ty => translated Tx Ty img
  | Rotation angle => rotated angle img
  | RotationNoLoss teta => rotated_r teta img
  | Dilation scale => resized scale img
  | Reflection a => Ok (reflected a img)
  end.

(** A program that leaves every array of the store as it is and whose
    result, when it returns one, is an array it allocated. *)
Definition allocates_only (p : prog ref) : Prop :=
  forall s : store,
    exists new : list Raster,
      snd (p s) = s ++ new /\
      forall dst : ref,
        fst (p s) = Ok dst -> (length s <= dst < length (snd (p s)))%nat.

(** ** Composition of matrices *)

(** Modelled from the spec: the script has no function that composes two
    matrices (it chains calls of [warpAffine] instead).  [compose m1 m2] is
    the product of the homogeneous 3x3 forms, [m2 * m1], cut back to 2x3:
    the matrix of "[m1], then [m2]". *)
Definition compose (m1 m2 : Matrix) : Matrix :=
  mkMatrix (m00 m2 * m00 m1 + m01 m2 * m10 m1)
           (m00 m2 * m01 m1 + m01 m2 * m11 m1)
           (m00 m2 * m02 m1 + m01 m2 * m12 m1 + m02 m2)
           (m10 m2 * m00 m1 + m11 m2 * m10 m1)
           (m10 m2 * m01 m1 + m11 m2 * m11 m1)
           (m10 m2 * m02 m1 + m11 m2 * m12 m1 + m12 m2).

(** ** Predicates of the statements *)

(** [p] lies on the pixel grid of a canvas of [dsize = (width, height)]. *)
Definition inside (dsize : Z * Z) (p : Point) : Prop :=
  0 <= fst p <= IZR (fst dsize - 1) /\ 0 <= snd p <= IZR (snd dsize - 1).

(** A raster with [height] rows of [width] pixels each. *)
Definition populated (width height : Z) (img : Raster) : Prop :=
  rows img = height /\ Forall (fun row => Z.of_nat (length row) = width) img.

(** The raster of [h] rows and [w] columns whose pixel (u, v) is [f u v]. *)
Definition grid (w h : nat) (f : Z -> Z -> Pixel) : Raster :=
  map (fun v => map (fun u => f (Z.of_nat u) (Z.of_nat v)) (seq 0 w)) (seq 0 h).

(** ** Sample rasters *)

(** One row of two pixels. *)
Definition two_pixels : Raster := [[(1, 1, 1); (2, 2, 2)]]%Z.

(** A single pixel. *)
Definition one_pixel : Raster := [[(7, 8, 9)]]%Z.

(** Two rows of two pixels. *)
Definition four_pixels : Raster :=
  [[(1, 1, 1); (2, 2, 2)]; [(3, 3, 3); (4, 4, 4)]]%Z.

(** ** More blocks of the script *)

(** Lines 115-116: translation into a canvas enlarged by the offsets. *)
Definition translated_enlarged (Tx Ty : Z) (img : Raster) : result Raster :=
  let '(height, width) := shape img in
  cv2.warpAffine img (M_translation Tx Ty) (width + Tx, height + Ty)%Z.

(** Lines 115-121: the same, followed by the opposite translation into a
    canvas of the size of the source. *)
Definition translated_restored (Tx Ty : Z) (img : Raster) : result Raster :=
  let '(height, width) := shape img in
  translated <- cv2.warpAffine img (M_translation Tx Ty)
                  (width + Tx, height + Ty)%Z ;;
  cv2.warpAffine translated (M_translation (- Tx) (- Ty)) (width, height).

(** Lines 137-140: rotation about the origin, with the matrix written out:
    [np.float32([[cos teta, -sin teta, 0], [sin teta, cos teta, 0]])]. *)
Definition M_rotation_origin (angle : R) : Matrix :=
  let teta := np.deg2rad angle in
  mkMatrix (np.cos teta) (- np.sin teta) 0 (np.sin teta) (np.cos teta) 0.

Definition rotated_origin (angle : R) (img : Raster) : result Raster :=
  let '(height, width) := shape img in
  cv2.warpAffine img (M_rotation_origin angle) (width, height).

(** * Basic operations on images (04_Basic_Image_Operations/image.py) *)

(** A single-channel array: one channel of an image, a grey image, a mask. *)
Definition Plane : Type := list (list Z).

Definition blue (p : Pixel) : Z := fst (fst p).
Definition green (p : Pixel) : Z := snd (fst p).
Definition red (p : Pixel) : Z := snd p.

Definition plane_shape (p : Plane) : Z * Z :=
  (Z.of_nat (length p), Z.of_nat (length (hd [] p))).

Definition same_shape (p q : Plane) : bool :=
  ((fst (plane_shape p) =? fst (plane_shape q))
   && (snd (plane_shape p) =? snd (plane_shape q)))%Z.

(** A plane of [height] rows of [width] values each. *)
Definition is_plane (width height : nat) (p : Plane) : Prop :=
  length p = height /\ Forall (fun row => length row = width) p.

(** [cv2.split(img)]: the arrays of the B, the G and the R channel. *)
Definition cv2_split (img : Raster) : Plane * Plane * Plane :=
  (map (map blue) img, map (map green) img, map (map red) img).

Fixpoint zip3 (b g r : list Z) : list Pixel :=
  match b, g, r with
  | x :: b', y :: g', z :: r' => (x, y, z) :: zip3 b' g' r'
  | _, _, _ => []
  end.

Fixpoint zip3_rows (b g r : Plane) : Raster :=
  match b, g, r with
  | x :: b', y :: g', z :: r' => zip3 x y z :: zip3_rows b' g' r'
  | _, _, _ => []
  end.

(** [cv2.merge((b, g, r))]: the image whose channels are the three planes.
    An empty first plane fails an assertion, and so do planes of different
    sizes. *)
Definition cv2_merge (b g r : Plane) : result Raster :=
  if ((0 <? fst (plane_shape b)) && (0 <? snd (plane_shape b)))%Z
     && same_shape b g && same_shape b r
  then Ok (zip3_rows b g r)
  else Raise cv2_error.

(** [np.zeros((height, width), dtype="uint8")]. *)
Definition np_zeros (height width : Z) : Plane :=
  repeat (repeat 0%Z (Z.to_nat width)) (Z.to_nat height).

(** Lines 207-208: the image is split and merged again. *)
Definition merged (roi : Raster) : result Raster :=
  let '(b, g, r) := cv2_split roi in
  cv2_merge b g r.

(** Lines 226-230: one image per channel, the other two channels zero. *)
Definition single_channels (roi : Raster)
  : result (Raster * Raster * Raster) :=
  let '(b, g, r) := cv2_split roi in
  let '(height, width) := shape roi in
  let zeros := np_zeros height width in
  b' <- cv2_merge b zeros zeros ;;
  g' <- cv2_merge zeros g zeros ;;
  r' <- cv2_merge zeros zeros r ;;
  Ok (b', g', r').

(** Assignment through an index.  [update img f] is [img] with the pixel
    [p] at (x, y) replaced by [f x y p]. *)
Definition update (img : Raster) (f : Z -> Z -> Pixel -> Pixel) : Raster :=
  map (fun yr =>
         map (fun xp => f (Z.of_nat (fst xp)) (Z.of_nat (fst yr)) (snd xp))
             (combine (seq 0 (length (snd yr))) (snd yr)))
      (combine (seq 0 (length img)) img).

(** [img[y, x] = v] for indices that are not negative; [None] stands for
    IndexError. *)
Definition setitem_pixel (img : Raster) (y x : Z) (v : Pixel)
  : option Raster :=
  match pixel_at img x y with
  | Some _ =>
      Some (update img (fun x' y' p =>
                          if ((x' =? x) && (y' =? y))%Z then v else p))
  | None => None
  end.

(** [img[y0:y1, x0:x1] = v] for bounds that are not negative: the slice is
    cut to the array, and every pixel of it becomes [v]. *)
Definition setitem_slice (img : Raster) (y0 y1 x0 x1 : Z) (v : Pixel)
  : Raster :=
  update img (fun x y p =>
                if ((x0 <=? x) && (x <? x1) && (y0 <=? y) && (y <? y1))%Z
                then v else p).

(** Assignment to the array a reference points to. *)
Definition store_set (s : store) (r : ref) (img : Raster) : store :=
  firstn r s ++ img :: skipn (S r) s.

(** Lines 111-117: [copy = image.copy()], [copy[0, 0] = (0, 0, 255)] and
    [copy[250:300, 50:100] = (255, 0, 0)].  The result is the reference
    held by [copy] and the store; [None] stands for IndexError. *)
Definition copy_and_paint (image : ref) (s : store) : option (ref * store) :=
  let copy := length s in
  let s1 := s ++ [deref s image] in
  match setitem_pixel (deref s1 copy) 0 0 (0, 0, 255)%Z with
  | Some painted =>
      let s2 := store_set s1 copy painted in
      let s3 := store_set s2 copy
                  (setitem_slice (deref s2 copy) 250 300 50 100 (255, 0, 0)%Z) in
      Some (copy, s3)
  | None => None
  end.

(** * Histograms (07_Histogram/histogram.py) *)

(** A plane of unsigned bytes. *)
Definition is_uint8 (p : Plane) : bool :=
  forallb (forallb (fun v => (0 <=? v) && (v <? 256))%Z) p.

(** The values of [gray] at the positions where [mask] is not zero. *)
Definition selected (gray mask : Plane) : list Z :=
  concat (map (fun gm =>
                 map fst (filter (fun vm => negb (snd vm =? 0)%Z)
                                 (combine (fst gm) (snd gm))))
              (combine gray mask)).

(** The number of occurrences of [i] among [values]. *)
Definition occurrences (values : list Z) (i : Z) : Z :=
  Z.of_nat (count_occ Z.eq_dec values i).

(** The float32 nearest to a natural number, ties going to the even
    mantissa: the numbers up to 2^24 are kept, the larger ones keep 24
    significant bits. *)
Definition float32 (n : Z) : Z :=
  if (n <? 16777216)%Z then n
  else
    let e := (Z.log2 n - 23)%Z in
    let q := (n / 2 ^ e)%Z in
    let r := (n mod 2 ^ e)%Z in
    let half := (2 ^ (e - 1))%Z in
    if (r <? half)%Z then (q * 2 ^ e)%Z
    else if (half <? r)%Z then ((q + 1) * 2 ^ e)%Z
         else if Z.even q then (q * 2 ^ e)%Z else ((q + 1) * 2 ^ e)%Z.

(** The exact counts of the 256 values. *)
Definition counts (values : list Z) : list Z :=
  map (fun i => occurrences values (Z.of_nat i)) (seq 0 256).

(** The bins [calcHist] returns: the counts, as float32. *)
Definition bins (values : list Z) : list Z := map float32 (counts values).

(** [cv2.calcHist([gray], [0], mask, [256], [0, 256])]: 256 bins of width 1,
    bin [i] counts the pixels of value [i], all of them when the mask is
    None and else those where the mask is not zero; the bins are float32.
    A mask of another size than the image fails an assertion. *)
Definition cv2_calcHist (gray : Plane) (mask : option Plane)
  : result (list Z) :=
  match mask with
  | None => Ok (bins (concat gray))
  | Some m =>
      if same_shape gray m then Ok (bins (selected gray m))
      else Raise cv2_error
  end.

(** The sum of the bins of a histogram. *)
Definition total (hist : list Z) : Z := fold_right Z.add 0%Z hist.

(** Lines 151-156: [np.zeros((heigh, width))] with the rows [y0:y1] set to
    255 ([mask[y0:y1, :] = 255], cut to the array). *)
Definition band_mask (heigh width y0 y1 : Z) : Plane :=
  map (fun y =>
         repeat (if ((y0 <=? Z.of_nat y) && (Z.of_nat y <? y1))%Z
                 then 255%Z else 0%Z)
                (Z.to_nat width))
      (seq 0 (Z.to_nat heigh)).

Definition mask1 (heigh width : Z) : Plane := band_mask heigh width 0 99.
Definition mask2 (heigh width : Z) : Plane := band_mask heigh width 102 288.
Definition mask3 (heigh width : Z) : Plane := band_mask heigh width 291 heigh.

(** Lines 208-212: the histograms of the three channels, added bin by bin;
    each of the two additions of float32 arrays rounds to float32. *)
Definition rgb_hist (image : Raster) : result (list Z) :=
  let '(b, g, r) := cv2_split image in
  blue_hist <- cv2_calcHist b None ;;
  green_hist <- cv2_calcHist g None ;;
  red_hist <- cv2_calcHist r None ;;
  Ok (map (fun bgr =>
             float32 (float32 (fst (fst bgr) + snd (fst bgr)) + snd bgr)%Z)
          (combine (combine blue_hist green_hist) red_hist)).

(** The paths of the four images the script reads. *)
Definition image1_path : string := "../99_Images/contrast1.jpg".
Definition image2_path : string := "../99_Images/contrast2.jpg".
Definition image3_path : string := "../99_Images/contrast3.jpg".
Definition image4_path : string := "../99_Images/bgr-led.jpg".

(** Lines 69-78, 139-142 and 199-202: the four images are read and three
    tests guard them.  The first two images are both read before either is
    tested, and the test after the fourth read is on [variable_contrast]. *)
Definition loaded (imread : string -> option Raster)
  : result (Raster * Raster * Raster * option Raster) :=
  let low_contrast := imread image1_path in
  let high_contrast := imread image2_path in
  match low_contrast with
  | None => Raise (FileNotFoundError image1_path)
  | Some low =>
      match high_contrast with
      | None => Raise (FileNotFoundError image2_path)
      | Some high =>
          let variable_contrast := imread image3_path in
          match variable_contrast with
          | None => Raise (FileNotFoundError image3_path)
          | Some variable =>
              let image := imread image4_path in
              match variable_contrast with
              | None => Raise (FileNotFoundError image4_path)
              | Some _ => Ok (low, high, variable, image)
              end
          end
      end
  end.

(** An [imread] that finds every image but bgr-led.jpg. *)
Definition led_missing (path : string) : option Raster :=
  if String.eqb path image4_path then None else Some one_pixel.

(** * Lemmas on the numeric helpers *)

Lemma int_IZR (n : Z) : int (IZR n) = n.
Proof.
  unfold int. destruct (Rle_dec 0 (IZR n)).
  - apply ZfloorZ.
  - apply Zceil_eq. lra.
Qed.

Lemma int_ceil (x : R) : int (np.ceil x) = Zceil x.
Proof. unfold np.ceil. apply int_IZR. Qed.

Lemma pymod_reduced (a : R) : is_reduced_angle a (pymod a 90).
Proof.
  unfold is_reduced_angle, pymod.
  pose proof (Zfloor_bound (a / 90)) as [Hlo Hhi].
  split.
  - split.
    + apply Rmult_le_compat_r with (r := 90) in Hlo; [|lra].
      replace (a / 90 * 90) with a in Hlo by field. lra.
    + apply Rmult_lt_compat_r with (r := 90) in Hhi; [|lra].
      replace (a / 90 * 90) with a in Hhi by field. lra.
  - exists (Zfloor (a / 90)). ring.
Qed.

Lemma pymod_small (a : R) : 0 <= a < 90 -> pymod a 90 = a.
Proof.
  intros [H0 H1]. unfold pymod.
  rewrite (Zfloor_eq 0 (a / 90)).
  - simpl. ring.
  - simpl. split.
    + apply Rmult_le_reg_r with (r := 90); [lra|].
      replace (a / 90 * 90) with a by field. lra.
    + apply Rmult_lt_reg_r with (r := 90); [lra|].
      replace (a / 90 * 90) with a by field. lra.
Qed.

Lemma deg2rad_45 : np.deg2rad 45 = PI / 4.
Proof. unfold np.deg2rad. field. Qed.

Lemma sqrt2_sqr : sqrt 2 * sqrt 2 = 2.
Proof. apply sqrt_sqrt. lra. Qed.

Lemma sqrt2_pos : 0 < sqrt 2.
Proof. apply sqrt_lt_R0. lra. Qed.

Lemma ceil_300_sqrt2 :
  Zceil (300 * (1 / sqrt 2) + 300 * (1 / sqrt 2)) = 425%Z.
Proof.
  pose proof sqrt2_sqr as Hs. pose proof sqrt2_pos as Hp.
  replace (300 * (1 / sqrt 2) + 300 * (1 / sqrt 2)) with (300 * sqrt 2).
  - apply Zceil_eq. split; nra.
  - apply Rmult_eq_reg_r with (r := sqrt 2); [|lra].
    replace ((300 * (1 / sqrt 2) + 300 * (1 / sqrt 2)) * sqrt 2) with 600
      by (field; lra).
    nra.
Qed.

Lemma Zceil_IZR (n : Z) : Zceil (IZR n) = n.
Proof. apply Zceil_eq. lra. Qed.

Lemma pymod_90 : pymod 90 90 = 0.
Proof.
  unfold pymod. replace (90 / 90) with (IZR 1) by (simpl; field).
  rewrite ZfloorZ. simpl. ring.
Qed.

Lemma deg2rad_0 : np.deg2rad 0 = 0.
Proof. unfold np.deg2rad. ring. Qed.

Lemma deg2rad_90 : np.deg2rad 90 = PI / 2.
Proof. unfold np.deg2rad. field. Qed.

Lemma deg2rad_plus (a b : R) :
  np.deg2rad (a + b) = np.deg2rad a + np.deg2rad b.
Proof. unfold np.deg2rad. ring. Qed.

(** An angle that is a multiple of 90 degrees leaves the canvas as it is. *)
Lemma canvas_aligned (width height : Z) (teta : R) :
  pymod teta 90 = 0 ->
  width_r width height teta = width /\ height_r width height teta = height.
Proof.
  intros H. unfold width_r, height_r, teta_rad, np.cos, np.sin.
  rewrite H, deg2rad_0, cos_0, sin_0, !int_ceil.
  split.
  - replace (IZR width * 1 + IZR height * 0) with (IZR width) by ring.
    apply Zceil_IZR.
  - replace (IZR width * 0 + IZR height * 1) with (IZR height) by ring.
    apply Zceil_IZR.
Qed.

Lemma teta_rad_range (teta : R) : 0 <= teta_rad teta < PI / 2.
Proof.
  unfold teta_rad, np.deg2rad.
  destruct (pymod_reduced teta) as [[H0 H1] _].
  pose proof PI_RGT_0 as Hpi. split; nra.
Qed.

(** In the first quadrant the cosine is positive and the sine is not
    negative, so the canvas of an image with pixels has pixels. *)
Lemma canvas_positive (width height : Z) (teta : R) :
  (0 < width)%Z -> (0 < height)%Z ->
  (0 < width_r width height teta)%Z /\ (0 < height_r width height teta)%Z.
Proof.
  intros Hw Hh. apply IZR_lt in Hw. apply IZR_lt in Hh.
  destruct (teta_rad_range teta) as [H0 H1]. pose proof PI_RGT_0 as Hpi.
  assert (Hc : 0 < cos (teta_rad teta)) by (apply cos_gt_0; lra).
  assert (Hs : 0 <= sin (teta_rad teta)) by (apply sin_ge_0; lra).
  unfold width_r, height_r, np.cos, np.sin. rewrite !int_ceil.
  split; apply lt_IZR.
  - pose proof (Zceil_bound (IZR width * cos (teta_rad teta)
                             + IZR height * sin (teta_rad teta))) as [_ Hb].
    eapply Rlt_le_trans; [|exact Hb]. nra.
  - pose proof (Zceil_bound (IZR width * sin (teta_rad teta)
                             + IZR height * cos (teta_rad teta))) as [_ Hb].
    eapply Rlt_le_trans; [|exact Hb]. nra.
Qed.

Lemma ceil_11_sqrt2 : Zceil (4 * (1 / sqrt 2) + 7 * (1 / sqrt 2)) = 8%Z.
Proof.
  pose proof sqrt2_sqr as Hs. pose proof sqrt2_pos as Hp.
  assert (Hi : 1 / sqrt 2 = sqrt 2 / 2).
  { apply Rmult_eq_reg_r with (r := sqrt 2); [|lra].
    replace (1 / sqrt 2 * sqrt 2) with 1 by (field; lra). nra. }
  rewrite Hi. apply Zceil_eq. split; nra.
Qed.

(** * Lemmas on matrices *)

Lemma compose_point (m1 m2 : Matrix) (p : Point) :
  transform_point (compose m1 m2) p = transform_point m2 (transform_point m1 p).
Proof.
  destruct p as [x y]. unfold transform_point, compose. simpl.
  f_equal; ring.
Qed.

(** Two rotations about the same centre add their angles. *)
Lemma rotation_plus (c p : Point) (a b : R) :
  transform_point (cv2.getRotationMatrix2D c b 1)
                  (transform_point (cv2.getRotationMatrix2D c a 1) p)
  = transform_point (cv2.getRotationMatrix2D c (a + b) 1) p.
Proof.
  destruct c as [cx cy], p as [x y].
  unfold transform_point, cv2.getRotationMatrix2D, np.cos, np.sin. simpl.
  rewrite deg2rad_plus, cos_plus, sin_plus.
  f_equal; ring.
Qed.

(** The centre of a rotation matrix is its fixed point. *)
Lemma rotation_center_fixed (c : Point) (angle scale : R) :
  transform_point (cv2.getRotationMatrix2D c angle scale) c = c.
Proof.
  destruct c as [cx cy].
  unfold transform_point, cv2.getRotationMatrix2D. simpl.
  f_equal; ring.
Qed.

Lemma translation_point (Tx Ty x y : Z) :
  transform_point (M_translation Tx Ty) (IZR x, IZR y)
  = (IZR (x + Tx), IZR (y + Ty)).
Proof.
  unfold transform_point, M_translation. simpl.
  rewrite !plus_IZR. f_equal; ring.
Qed.

(** * Lemmas on rasters *)

Lemma is_array_rows (img : Raster) :
  is_array img = true ->
  Forall (fun row => length row = length (hd [] img)) img.
Proof.
  unfold is_array. rewrite !andb_true_iff. intros [[H _] _].
  rewrite forallb_forall in H. apply Forall_forall. intros row Hin.
  apply Nat.eqb_eq. now apply H.
Qed.

Lemma is_array_positive (img : Raster) :
  is_array img = true -> (0 < rows img)%Z /\ (0 < cols img)%Z.
Proof.
  unfold is_array. rewrite !andb_true_iff. intros [[_ H1] H2].
  split; now apply Z.ltb_lt.
Qed.

Lemma row_length (img : Raster) (y : nat) (row : list Pixel) :
  is_array img = true -> nth_error img y = Some row ->
  length row = length (hd [] img).
Proof.
  intros Ha Hr. apply is_array_rows in Ha.
  rewrite Forall_forall in Ha. apply Ha. eapply nth_error_In. eassumption.
Qed.

Lemma pixel_at_nat (img : Raster) (x y : nat) :
  pixel_at img (Z.of_nat x) (Z.of_nat y)
  = match nth_error img y with
    | Some row => nth_error row x
    | None => None
    end.
Proof.
  unfold pixel_at.
  replace ((0 <=? Z.of_nat x) && (0 <=? Z.of_nat y))%Z with true
    by (symmetry; apply andb_true_iff; split; apply Z.leb_le; lia).
  now rewrite !Nat2Z.id.
Qed.

(** Every coordinate of the grid holds a pixel. *)
Lemma pixel_at_inside (img : Raster) (x y : Z) :
  is_array img = true ->
  (0 <= x < cols img)%Z -> (0 <= y < rows img)%Z ->
  exists p, pixel_at img x y = Some p.
Proof.
  intros Ha Hx Hy. unfold rows, cols in *.
  rewrite <- (Z2Nat.id x), <- (Z2Nat.id y) by lia. rewrite pixel_at_nat.
  destruct (nth_error img (Z.to_nat y)) as [row|] eqn:Hr.
  - pose proof (row_length _ _ _ Ha Hr) as Hl.
    destruct (nth_error row (Z.to_nat x)) as [p|] eqn:Hp; [now exists p|].
    apply nth_error_None in Hp. lia.
  - apply nth_error_None in Hr. lia.
Qed.

Lemma pixel_at_outside (img : Raster) (x y : Z) :
  is_array img = true ->
  ~ ((0 <= x < cols img)%Z /\ (0 <= y < rows img)%Z) ->
  pixel_at img x y = None.
Proof.
  intros Ha Hout. unfold pixel_at.
  destruct ((0 <=? x) && (0 <=? y))%Z eqn:Hb; [|reflexivity].
  apply andb_true_iff in Hb. destruct Hb as [Hx Hy].
  apply Z.leb_le in Hx. apply Z.leb_le in Hy.
  destruct (nth_error img (Z.to_nat y)) as [row|] eqn:Hr; [|reflexivity].
  pose proof (row_length _ _ _ Ha Hr) as Hl.
  assert (Hy' : (Z.to_nat y < length img)%nat)
    by (apply nth_error_Some; congruence).
  apply nth_error_None. unfold rows, cols in Hout. lia.
Qed.

(** ** Reflection *)

Lemma pixel_at_rev_rows (img : Raster) (x y : Z) :
  (0 <= y < rows img)%Z ->
  pixel_at (rev img) x y = pixel_at img x (rows img - 1 - y).
Proof.
  intros Hy. unfold pixel_at, rows in *.
  replace (0 <=? Z.of_nat (length img) - 1 - y)%Z with (0 <=? y)%Z
    by (apply eq_true_iff_eq; rewrite !Z.leb_le; lia).
  destruct ((0 <=? x) && (0 <=? y))%Z; [|reflexivity].
  rewrite nth_error_rev.
  replace (Z.to_nat y <? length img)%nat with true
    by (symmetry; apply Nat.ltb_lt; lia).
  replace (Z.to_nat (Z.of_nat (length img) - 1 - y))
    with (length img - S (Z.to_nat y))%nat by lia.
  reflexivity.
Qed.

Lemma pixel_at_rev_cols (img : Raster) (x y : Z) :
  is_array img = true ->
  (0 <= x < cols img)%Z ->
  pixel_at (map (@rev Pixel) img) x y = pixel_at img (cols img - 1 - x) y.
Proof.
  intros Ha Hx. unfold pixel_at, cols in *.
  replace (0 <=? Z.of_nat (length (hd [] img)) - 1 - x)%Z with (0 <=? x)%Z
    by (apply eq_true_iff_eq; rewrite !Z.leb_le; lia).
  destruct ((0 <=? x) && (0 <=? y))%Z; [|reflexivity].
  rewrite nth_error_map.
  destruct (nth_error img (Z.to_nat y)) as [row|] eqn:Hr; [|reflexivity].
  simpl. pose proof (row_length _ _ _ Ha Hr) as Hl.
  rewrite nth_error_rev.
  replace (Z.to_nat x <? length row)%nat with true
    by (symmetry; apply Nat.ltb_lt; lia).
  replace (Z.to_nat (Z.of_nat (length (hd [] img)) - 1 - x))
    with (length row - S (Z.to_nat x))%nat by lia.
  reflexivity.
Qed.

Lemma rows_rev (img : Raster) : rows (rev img) = rows img.
Proof. unfold rows. now rewrite length_rev. Qed.

Lemma is_array_map_rev (img : Raster) :
  is_array img = true -> is_array (map (@rev Pixel) img) = true.
Proof.
  intros Ha. pose proof (is_array_rows _ Ha) as Hr.
  destruct (is_array_positive _ Ha) as [H1 H2].
  unfold is_array, rows, cols in *. rewrite !andb_true_iff. repeat split.
  - apply forallb_forall. intros row Hin. apply in_map_iff in Hin.
    destruct Hin as [row' [<- Hin]]. apply Nat.eqb_eq.
    rewrite Forall_forall in Hr. rewrite length_rev, (Hr _ Hin).
    destruct img; simpl; [reflexivity|now rewrite length_rev].
  - apply Z.ltb_lt. now rewrite length_map.
  - apply Z.ltb_lt. destruct img; simpl in *; [lia|now rewrite length_rev].
Qed.

Lemma cols_map_rev (img : Raster) :
  cols (map (@rev Pixel) img) = cols img.
Proof. unfold cols. destruct img; simpl; [reflexivity|now rewrite length_rev]. Qed.

Lemma rows_map_rev (img : Raster) :
  rows (map (@rev Pixel) img) = rows img.
Proof. unfold rows. now rewrite length_map. Qed.

Lemma map_rev_involutive (img : Raster) :
  map (@rev Pixel) (map (@rev Pixel) img) = img.
Proof.
  rewrite map_map. rewrite <- (map_id img) at 2.
  apply map_ext. intros row. apply rev_involutive.
Qed.

(** ** Grids *)

Lemma length_grid (w h : nat) (f : Z -> Z -> Pixel) : length (grid w h f) = h.
Proof. unfold grid. now rewrite length_map, length_seq. Qed.

Lemma rows_grid (w h : nat) (f : Z -> Z -> Pixel) :
  rows (grid w h f) = Z.of_nat h.
Proof. unfold rows. now rewrite length_grid. Qed.

Lemma grid_row (w h : nat) (f : Z -> Z -> Pixel) (row : list Pixel) :
  In row (grid w h f) -> length row = w.
Proof.
  unfold grid. intros Hin. apply in_map_iff in Hin.
  destruct Hin as [v [<- _]]. now rewrite length_map, length_seq.
Qed.

Lemma cols_grid (w h : nat) (f : Z -> Z -> Pixel) :
  (0 < h)%nat -> cols (grid w h f) = Z.of_nat w.
Proof.
  intros Hh. unfold cols. f_equal. apply (grid_row w h f).
  destruct h; [lia|]. unfold grid. simpl. now left.
Qed.

Lemma is_array_grid (w h : nat) (f : Z -> Z -> Pixel) :
  (0 < w)%nat -> (0 < h)%nat -> is_array (grid w h f) = true.
Proof.
  intros Hw Hh. unfold is_array. rewrite rows_grid, (cols_grid _ _ _ Hh).
  rewrite !andb_true_iff. repeat split; try (apply Z.ltb_lt; lia).
  apply forallb_forall. intros row Hin. apply Nat.eqb_eq.
  rewrite (grid_row _ _ _ _ Hin). symmetry. apply (grid_row w h f).
  destruct h; [lia|]. unfold grid. simpl. now left.
Qed.

Lemma populated_grid (w h : nat) (f : Z -> Z -> Pixel) :
  populated (Z.of_nat w) (Z.of_nat h) (grid w h f).
Proof.
  split; [apply rows_grid|]. apply Forall_forall. intros row Hin.
  now rewrite (grid_row _ _ _ _ Hin).
Qed.

Lemma pixel_at_grid (w h : nat) (f : Z -> Z -> Pixel) (x y : Z) :
  (0 <= x < Z.of_nat w)%Z -> (0 <= y < Z.of_nat h)%Z ->
  pixel_at (grid w h f) x y = Some (f x y).
Proof.
  intros Hx Hy.
  rewrite <- (Z2Nat.id x) at 1 by lia. rewrite <- (Z2Nat.id y) at 1 by lia.
  rewrite pixel_at_nat. unfold grid.
  rewrite nth_error_map, nth_error_seq.
  replace (Z.to_nat y <? h)%nat with true by (symmetry; apply Nat.ltb_lt; lia).
  simpl. rewrite nth_error_map, nth_error_seq.
  replace (Z.to_nat x <? w)%nat with true by (symmetry; apply Nat.ltb_lt; lia).
  simpl. now rewrite !Z2Nat.id by lia.
Qed.

Lemma grid_ext (w h : nat) (f g : Z -> Z -> Pixel) :
  (forall x y, (0 <= x < Z.of_nat w)%Z -> (0 <= y < Z.of_nat h)%Z ->
               f x y = g x y) ->
  grid w h f = grid w h g.
Proof.
  intros H. unfold grid. apply map_ext_in. intros v Hv.
  apply map_ext_in. intros u Hu.
  apply in_seq in Hv. apply in_seq in Hu. apply H; lia.
Qed.

Lemma sample_nat (src : Raster) (u v : nat) :
  cv2.sample src (Z.of_nat u) (Z.of_nat v)
  = nth u (nth v src []) cv2.borderValue.
Proof.
  unfold cv2.sample. rewrite pixel_at_nat.
  destruct (nth_error src v) as [row|] eqn:Hr.
  - rewrite (nth_error_nth _ _ [] Hr).
    destruct (nth_error row u) as [p|] eqn:Hp.
    + now rewrite (nth_error_nth _ _ cv2.borderValue Hp).
    + apply nth_error_None in Hp. now rewrite nth_overflow.
  - apply nth_error_None in Hr. rewrite (nth_overflow src) by assumption.
    now destruct u.
Qed.

Lemma map_nth_seq {A : Type} (l : list A) (d : A) :
  map (fun i => nth i l d) (seq 0 (length l)) = l.
Proof.
  apply nth_error_ext. intros n. rewrite nth_error_map, nth_error_seq.
  destruct (Nat.ltb_spec n (length l)) as [Hlt|Hge]; simpl.
  - symmetry. now apply nth_error_nth'.
  - symmetry. now apply nth_error_None.
Qed.

(** Sampling an array at every coordinate of its own grid gives it back. *)
Lemma grid_sample (img : Raster) :
  is_array img = true ->
  grid (length (hd [] img)) (length img) (cv2.sample img) = img.
Proof.
  intros Ha. unfold grid.
  transitivity (map (fun v => nth v img []) (seq 0 (length img)));
    [|apply map_nth_seq].
  apply map_ext_in. intros v Hv. apply in_seq in Hv.
  assert (Hr : nth_error img v = Some (nth v img []))
    by (apply nth_error_nth'; lia).
  rewrite <- (row_length _ _ _ Ha Hr).
  transitivity (map (fun u => nth u (nth v img []) cv2.borderValue)
                    (seq 0 (length (nth v img []))));
    [|apply map_nth_seq].
  apply map_ext. intros u. apply sample_nat.
Qed.

(** ** Warping *)

Lemma blend_integer (p00 p10 p01 p11 : Z) : cv2.blend 0 0 p00 p10 p01 p11 = p00.
Proof. unfold cv2.blend. apply Zfloor_eq. lra. Qed.

(** At integer source coordinates interpolation returns the source sample. *)
Lemma bilinear_integer (src : Raster) (x y : Z) :
  cv2.bilinear src (IZR x, IZR y) = cv2.sample src x y.
Proof.
  unfold cv2.bilinear. simpl fst. simpl snd. rewrite !ZfloorZ.
  replace (IZR x - IZR x) with 0 by ring.
  replace (IZR y - IZR y) with 0 by ring.
  destruct (cv2.sample src x y) as [[b00 g00] r00].
  destruct (cv2.sample src (x + 1) y) as [[b10 g10] r10].
  destruct (cv2.sample src x (y + 1)) as [[b01 g01] r01].
  destruct (cv2.sample src (x + 1) (y + 1)) as [[b11 g11] r11].
  now rewrite !blend_integer.
Qed.

Lemma remap_grid (src : Raster) (A : Matrix) (w h : nat) :
  cv2.remap src A w h
  = grid w h (fun u v => cv2.bilinear src (transform_point A (IZR u, IZR v))).
Proof.
  unfold cv2.remap, grid. apply map_ext. intros v. apply map_ext. intros u.
  now rewrite !INR_IZR_INZ.
Qed.

(** The inverse of a translation is the opposite translation. *)
Lemma invert_translation_point (Tx Ty u v : Z) :
  transform_point (cv2.invert (M_translation Tx Ty)) (IZR u, IZR v)
  = (IZR (u - Tx), IZR (v - Ty)).
Proof.
  unfold cv2.invert, det, M_translation. simpl.
  destruct (Req_dec_T (1 * 1 - 0 * 0) 0) as [H|_]; [lra|].
  unfold transform_point. simpl. rewrite !minus_IZR. f_equal; field.
Qed.

(** The inverse of a singular matrix sends every point to the origin. *)
Lemma invert_singular_point (M : Matrix) (p : Point) :
  det M = 0 -> transform_point (cv2.invert M) p = (IZR 0, IZR 0).
Proof.
  intros HD. unfold cv2.invert. rewrite HD.
  destruct (Req_dec_T 0 0) as [_|H]; [|now elim H].
  unfold transform_point. simpl. f_equal; ring.
Qed.

(** The size [warpAffine] gives its destination. *)
Lemma warpAffine_ok (src : Raster) (M : Matrix) (w h : Z) :
  is_array src = true -> (0 < w)%Z -> (0 < h)%Z ->
  cv2.warpAffine src M (w, h)
  = Ok (grid (Z.to_nat w) (Z.to_nat h)
             (fun u v =>
                cv2.bilinear src
                  (transform_point (cv2.invert M) (IZR u, IZR v)))).
Proof.
  intros Ha Hw Hh. destruct (is_array_positive _ Ha) as [Hr Hc].
  unfold cv2.warpAffine.
  replace ((0 <? cols src) && (0 <? rows src))%Z with true
    by (symmetry; apply andb_true_iff; split; apply Z.ltb_lt; assumption).
  simpl fst. simpl snd.
  replace ((w <=? 0) || (h <=? 0))%Z with false
    by (symmetry; apply orb_false_iff; split; apply Z.leb_gt; assumption).
  simpl fst. simpl snd. now rewrite remap_grid.
Qed.

Lemma warpAffine_translation (src : Raster) (Tx Ty w h : Z) :
  is_array src = true -> (0 < w)%Z -> (0 < h)%Z ->
  cv2.warpAffine src (M_translation Tx Ty) (w, h)
  = Ok (grid (Z.to_nat w) (Z.to_nat h)
             (fun u v => cv2.sample src (u - Tx) (v - Ty))).
Proof.
  intros Ha Hw Hh. rewrite warpAffine_ok by assumption. f_equal.
  apply grid_ext. intros x y _ _.
  now rewrite invert_translation_point, bilinear_integer.
Qed.

Lemma warpAffine_singular (src : Raster) (M : Matrix) (w h : Z) :
  is_array src = true -> (0 < w)%Z -> (0 < h)%Z -> det M = 0 ->
  cv2.warpAffine src M (w, h)
  = Ok (grid (Z.to_nat w) (Z.to_nat h) (fun _ _ => cv2.sample src 0 0)).
Proof.
  intros Ha Hw Hh HD. rewrite warpAffine_ok by assumption. f_equal.
  apply grid_ext. intros x y _ _.
  now rewrite invert_singular_point, bilinear_integer.
Qed.

(** Whatever the matrix and the size asked for, the warp of an array is an
    array, and nothing but an empty source makes the call raise. *)
Lemma warpAffine_result (src : Raster) (M : Matrix) (dsize : Z * Z) :
  (exists dst w h,
      cv2.warpAffine src M dsize = Ok dst /\ (0 < w)%Z /\ (0 < h)%Z /\
      populated w h dst /\ is_array dst = true /\
      (((0 < fst dsize)%Z /\ (0 < snd dsize)%Z) -> (w, h) = dsize)) \/
  (cv2.warpAffine src M dsize = Raise cv2_error /\
   ~ ((0 < cols src)%Z /\ (0 < rows src)%Z)).
Proof.
  unfold cv2.warpAffine.
  destruct ((0 <? cols src) && (0 <? rows src))%Z eqn:Hs.
  - left. apply andb_true_iff in Hs. destruct Hs as [Hc Hr].
    apply Z.ltb_lt in Hc. apply Z.ltb_lt in Hr.
    rewrite remap_grid.
    destruct ((fst dsize <=? 0) || (snd dsize <=? 0))%Z eqn:He; simpl fst;
      simpl snd.
    + exists (grid (Z.to_nat (cols src)) (Z.to_nat (rows src))
                   (fun u v => cv2.bilinear src
                      (transform_point (cv2.invert M) (IZR u, IZR v)))),
        (cols src), (rows src).
      split; [reflexivity|]. split; [assumption|]. split; [assumption|].
      split; [|split].
      * rewrite <- (Z2Nat.id (cols src)) at 1 by lia.
        rewrite <- (Z2Nat.id (rows src)) at 1 by lia. apply populated_grid.
      * apply is_array_grid; lia.
      * intros [H1 H2]. apply orb_true_iff in He.
        destruct He as [He|He]; apply Z.leb_le in He; lia.
    + apply orb_false_iff in He. destruct He as [H1 H2].
      apply Z.leb_gt in H1. apply Z.leb_gt in H2.
      exists (grid (Z.to_nat (fst dsize)) (Z.to_nat (snd dsize))
                   (fun u v => cv2.bilinear src
                      (transform_point (cv2.invert M) (IZR u, IZR v)))),
        (fst dsize), (snd dsize).
      split; [reflexivity|]. split; [assumption|]. split; [assumption|].
      split; [|split].
      * rewrite <- (Z2Nat.id (fst dsize)) at 1 by lia.
        rewrite <- (Z2Nat.id (snd dsize)) at 1 by lia. apply populated_grid.
      * apply is_array_grid; lia.
      * intros _. now destruct dsize.
  - right. split; [reflexivity|].
    intros [Hc Hr]. apply Z.ltb_lt in Hc. apply Z.ltb_lt in Hr.
    rewrite Hc, Hr in Hs. discriminate.
Qed.

(** ** The blocks of the script *)

Lemma translated_grid (img : Raster) (Tx Ty : Z) :
  is_array img = true ->
  translated Tx Ty img
  = Ok (grid (length (hd [] img)) (length img)
             (fun u v => cv2.sample img (u - Tx) (v - Ty))).
Proof.
  intros Ha. destruct (is_array_positive _ Ha) as [Hr Hc].
  unfold translated, shape.
  rewrite warpAffine_translation by assumption.
  unfold cols, rows. now rewrite !Nat2Z.id.
Qed.

Lemma translated_identity (img : Raster) :
  is_array img = true -> translated 0 0 img = Ok img.
Proof.
  intros Ha. rewrite translated_grid by assumption. f_equal.
  rewrite <- (grid_sample img Ha) at 3.
  apply grid_ext. intros x y _ _. now rewrite !Z.sub_0_r.
Qed.

(** A rotation by 0 degrees has the matrix of the translation by (0, 0). *)
Lemma M_rotation_0 (c : Z * Z) : M_rotation c 0 = M_translation 0 0.
Proof.
  unfold M_rotation, cv2.getRotationMatrix2D, M_translation, np.cos, np.sin.
  rewrite deg2rad_0, cos_0, sin_0. f_equal; ring.
Qed.

Lemma rotated_identity (img : Raster) :
  is_array img = true -> rotated 0 img = Ok img.
Proof.
  intros Ha. unfold rotated, shape. rewrite M_rotation_0.
  apply (translated_identity img Ha).
Qed.

Lemma shape_grid (w h : nat) (f : Z -> Z -> Pixel) :
  (0 < h)%nat -> shape (grid w h f) = (Z.of_nat h, Z.of_nat w).
Proof. intros Hh. unfold shape. now rewrite rows_grid, cols_grid. Qed.

(** ** The store *)

Lemma call_allocates_only (f : Raster -> result Raster) (src : ref) :
  allocates_only (call f src).
Proof.
  intros s. unfold call. destruct (f (deref s src)) as [dst|e]; simpl.
  - exists [dst]. split; [reflexivity|]. intros r Hr. inversion Hr.
    rewrite length_app. simpl. lia.
  - exists []. split; [now rewrite app_nil_r|]. intros r Hr. discriminate.
Qed.

Lemma and_then_allocates_only (p : prog ref) (k : ref -> prog ref) :
  allocates_only p -> (forall r, allocates_only (k r)) ->
  allocates_only (and_then p k).
Proof.
  intros Hp Hk s. unfold and_then.
  destruct (Hp s) as [new1 [Hs1 Hr1]].
  destruct (p s) as [[r|e] s1] eqn:Hps; simpl in *.
  - destruct (Hk r s1) as [new2 [Hs2 Hr2]].
    exists (new1 ++ new2). split.
    + rewrite Hs2, Hs1. now rewrite app_assoc.
    + intros dst Hd. specialize (Hr2 dst Hd). subst s1.
      rewrite length_app in Hr2. lia.
  - exists new1. split; [assumption|]. intros dst Hd. discriminate.
Qed.

Lemma run_allocates_only (t : transformation) (src : ref) :
  allocates_only (run t src).
Proof.
  destruct t; simpl; try apply call_allocates_only.
  intros s. destruct (shape (deref s src)) as [height width].
  apply and_then_allocates_only; intros; apply call_allocates_only.
Qed.

Lemma deref_app (s new : store) (r : ref) :
  (r < length s)%nat -> deref (s ++ new) r = deref s r.
Proof. intros Hr. unfold deref. now apply app_nth1. Qed.

Lemma deref_new (s : store) (img : Raster) :
  deref (s ++ [img]) (length s) = img.
Proof. unfold deref. now rewrite nth_middle. Qed.

Lemma call_result (f : Raster -> result Raster) (src : ref) (s : store) :
  (src < length s)%nat ->
  match call f src s with
  | (Ok dst, s') => f (deref s src) = Ok (deref s' dst)
  | (Raise e, s') => f (deref s src) = Raise e /\ s' = s
  end.
Proof.
  intros Hs. unfold call. destruct (f (deref s src)) as [dst|e].
  - now rewrite deref_new.
  - now split.
Qed.

(** The statements on references compute the image [transformed] describes,
    and leave the store as it was when they raise. *)
Lemma run_transformed (t : transformation) (src : ref) (s : store) :
  (src < length s)%nat ->
  match run t src s with
  | (Ok dst, s') => transformed t (deref s src) = Ok (deref s' dst)
  | (Raise e, s') => transformed t (deref s src) = Raise e
  end.
Proof.
  intros Hs.
  destruct t; simpl run; simpl transformed;
    try (pose proof (call_result (translated Tx Ty) src s Hs) as H;
         destruct (call (translated Tx Ty) src s) as [[dst|e] s'];
         [exact H|exact (proj1 H)]);
    try (pose proof (call_result (rotated angle) src s Hs) as H;
         destruct (call (rotated angle) src s) as [[dst|e] s'];
         [exact H|exact (proj1 H)]);
    try (pose proof (call_result (resized scale) src s Hs) as H;
         destruct (call (resized scale) src s) as [[dst|e] s'];
         [exact H|exact (proj1 H)]);
    try (pose proof (call_result (fun img => Ok (reflected a img)) src s Hs)
           as H;
         destruct (call (fun img => Ok (reflected a img)) src s)
           as [[dst|e] s'];
         [exact H|exact (proj1 H)]).
  unfold rotated_r, shape. cbv beta iota.
  set (width := cols (deref s src)). set (height := rows (deref s src)).
  unfold and_then, call.
  destruct (cv2.warpAffine (deref s src) (M_center width height teta)
              (width_r width height teta, height_r width height teta))
    as [mid|e]; cbv beta iota; simpl bind; [|reflexivity].
  rewrite deref_new.
  destruct (cv2.warpAffine mid (M_rotation (center_r width height teta) teta)
              (width_r width height teta, height_r width height teta))
    as [dst|e]; [|reflexivity].
  now rewrite deref_new.
Qed.

Lemma half_inside (n : Z) : (0 < n)%Z -> (0 <= floordiv n 2 < n)%Z.
Proof. intros Hn. unfold floordiv. Z.div_mod_to_equations. lia. Qed.

(** After the translation of line 176-177 the canvas holds, at its centre,
    the pixel the source has at its own centre. *)
Lemma centered_pixel (img : Raster) (teta : R) :
  is_array img = true ->
  exists (mid : Raster) (p : Pixel),
    cv2.warpAffine img (M_center (cols img) (rows img) teta)
      (width_r (cols img) (rows img) teta, height_r (cols img) (rows img) teta)
    = Ok mid /\
    pixel_at img (floordiv (cols img) 2) (floordiv (rows img) 2) = Some p /\
    pixel_at mid (floordiv (width_r (cols img) (rows img) teta) 2)
                 (floordiv (height_r (cols img) (rows img) teta) 2) = Some p.
Proof.
  intros Ha. destruct (is_array_positive _ Ha) as [Hr Hc].
  destruct (canvas_positive (cols img) (rows img) teta Hc Hr) as [Hwr Hhr].
  destruct (pixel_at_inside img (floordiv (cols img) 2)
              (floordiv (rows img) 2) Ha
              (half_inside _ Hc) (half_inside _ Hr)) as [p Hp].
  unfold M_center, center, center_r. simpl fst. simpl snd.
  rewrite warpAffine_translation by assumption.
  eexists. exists p. split; [reflexivity|]. split; [exact Hp|].
  rewrite pixel_at_grid
    by (rewrite Z2Nat.id by lia; now apply half_inside).
  unfold cv2.sample.
  replace (floordiv (width_r (cols img) (rows img) teta) 2
           - (floordiv (width_r (cols img) (rows img) teta) 2
              - floordiv (cols img) 2))%Z
    with (floordiv (cols img) 2) by lia.
  replace (floordiv (height_r (cols img) (rows img) teta) 2
           - (floordiv (height_r (cols img) (rows img) teta) 2
              - floordiv (rows img) 2))%Z
    with (floordiv (rows img) 2) by lia.
  now rewrite Hp.
Qed.

(** ** Rotation without loss, in the first quadrant *)



(** * Claims *)

(** C1. The canvas sizer returns [width' = ceil(width*cos th' + height*sin th')]
    and [height' = ceil(width*sin th' + height*cos th')], where [th'] is the
    angle reduced modulo 90 degrees (in radians); for a 300x300 source at
    45 degrees both dimensions are exactly 425. *)
Theorem canvas_sizer_formula :
  (forall (width height : Z) (teta : R),
      exists r : R,
        is_reduced_angle teta r /\
        is_ceiling (IZR width * cos (r * PI / 180)
                    + IZR height * sin (r * PI / 180))
                   (width_r width height teta) /\
        is_ceiling (IZR width * sin (r * PI / 180)
                    + IZR height * cos (r * PI / 180))
                   (height_r width height teta)) /\
  width_r 300 300 45 = 425%Z /\ height_r 300 300 45 = 425%Z.
Proof.
  split; [|split].
  - intros width height teta. exists (pymod teta 90).
    split; [apply pymod_reduced|].
    unfold width_r, height_r, teta_rad, np.deg2rad, np.cos, np.sin, is_ceiling.
    rewrite !int_ceil.
    replace (pymod teta 90 * PI / 180) with (pymod teta 90 * (PI / 180))
      by (unfold Rdiv; ring).
    split; apply Zceil_bound.
  - unfold width_r, teta_rad, np.cos, np.sin. rewrite int_ceil.
    rewrite pymod_small by lra. rewrite deg2rad_45, cos_PI4, sin_PI4.
    apply ceil_300_sqrt2.
  - unfold height_r, teta_rad, np.cos, np.sin. rewrite int_ceil.
    rewrite pymod_small by lra. rewrite deg2rad_45, cos_PI4, sin_PI4.
    apply ceil_300_sqrt2.
Qed.

(** C8. For every centre [c] and point [p], the composition of the rotations
    by 30 and by 15 degrees about [c] sends [p] where the rotation by
    45 degrees about [c] does; [compose m1 m2] acts as [m1] followed by [m2]. *)
Theorem rotations_compose :
  (forall c p : Point,
      transform_point (compose (cv2.getRotationMatrix2D c 30 1)
                               (cv2.getRotationMatrix2D c 15 1)) p
      = transform_point (cv2.getRotationMatrix2D c 45 1) p) /\
  (forall (m1 m2 : Matrix) (p : Point),
      transform_point (compose m1 m2) p
      = transform_point m2 (transform_point m1 p)).
Proof.
  split.
  - intros c p. rewrite compose_point, rotation_plus.
    replace (30 + 15) with 45 by ring. reflexivity.
  - apply compose_point.
Qed.

(** C10. The translation of line 176, by
    [(width_r // 2 - width // 2, height_r // 2 - height // 2)], sends the
    centre pixel [(width // 2, height // 2)] of the source to
    [(width_r // 2, height_r // 2)], whatever the parities of the four
    dimensions; that point is the one the rotation of line 180 keeps fixed;
    and the translated image holds there the pixel the source has at its
    centre. *)
Theorem center_lands_on_center_r :
  (forall (width height : Z) (teta : R),
      M_center width height teta
      = M_translation
          (floordiv (width_r width height teta) 2 - floordiv width 2)
          (floordiv (height_r width height teta) 2 - floordiv height 2) /\
      transform_point (M_center width height teta)
                      (IZR (floordiv width 2), IZR (floordiv height 2))
      = (IZR (floordiv (width_r width height teta) 2),
         IZR (floordiv (height_r width height teta) 2)) /\
      transform_point (M_rotation (center_r width height teta) teta)
                      (IZR (floordiv (width_r width height teta) 2),
                       IZR (floordiv (height_r width height teta) 2))
      = (IZR (floordiv (width_r width height teta) 2),
         IZR (floordiv (height_r width height teta) 2))) /\
  (forall (img : Raster) (teta : R),
      is_array img = true ->
      exists (mid : Raster) (p : Pixel),
        cv2.warpAffine img (M_center (cols img) (rows img) teta)
          (width_r (cols img) (rows img) teta,
           height_r (cols img) (rows img) teta)
        = Ok mid /\
        pixel_at img (floordiv (cols img) 2) (floordiv (rows img) 2)
        = Some p /\
        pixel_at mid (floordiv (width_r (cols img) (rows img) teta) 2)
                     (floordiv (height_r (cols img) (rows img) teta) 2)
        = Some p).
Proof.
  split.
  - intros width height teta. split; [reflexivity|]. split.
    + unfold M_center, center, center_r. simpl fst. simpl snd.
      rewrite translation_point. f_equal; f_equal; lia.
    + unfold M_rotation, center_r. simpl fst. simpl snd.
      apply rotation_center_fixed.
  - intros img teta Ha. now apply centered_pixel.
Qed.

Lemma center_lands_on_center_r_witness :
  is_array two_pixels = true /\
  exists (mid : Raster) (p : Pixel),
    cv2.warpAffine two_pixels
      (M_center (cols two_pixels) (rows two_pixels) 45)
      (width_r (cols two_pixels) (rows two_pixels) 45,
       height_r (cols two_pixels) (rows two_pixels) 45)
    = Ok mid /\
    pixel_at two_pixels (floordiv (cols two_pixels) 2)
                        (floordiv (rows two_pixels) 2) = Some p /\
    pixel_at mid (floordiv (width_r (cols two_pixels) (rows two_pixels) 45) 2)
                 (floordiv (height_r (cols two_pixels) (rows two_pixels) 45) 2)
    = Some p.
Proof.
  split; [reflexivity|].
  apply (proj2 center_lands_on_center_r two_pixels 45). reflexivity.
Defined.

(** C2 fails on the code.  With [teta = 90] a 100x10 image keeps a canvas
    of 100x10, lower than the 100 rows the rotated image projects on, and
    its pixel (0, 0) is sent to (45, 55), far below the last row.  With the
    script's own [teta = 45] a 4x7 image gets a canvas of 8x8 and its pixel
    (0, 6) is sent to the ordinate [4 + 5 / sqrt 2], beyond the last row 7
    by more than half a pixel. *)
Theorem rotated_r_clips :
  (width_r 100 10 90 = 100%Z /\ height_r 100 10 90 = 10%Z /\
   IZR (height_r 100 10 90)
   < 100 * Rabs (sin (np.deg2rad 90)) + 10 * Rabs (cos (np.deg2rad 90)) /\
   rotated_r_point 100 10 90 (0, 0) = (45, 55) /\
   ~ inside (width_r 100 10 90, height_r 100 10 90)
            (rotated_r_point 100 10 90 (0, 0))) /\
  (width_r 4 7 45 = 8%Z /\ height_r 4 7 45 = 8%Z /\
   snd (rotated_r_point 4 7 45 (0, 6)) = 4 + 5 / sqrt 2 /\
   7 + 1 / 2 < snd (rotated_r_point 4 7 45 (0, 6)) /\
   ~ inside (width_r 4 7 45, height_r 4 7 45)
            (rotated_r_point 4 7 45 (0, 6))).
Proof.
  split.
  - destruct (canvas_aligned 100 10 90 pymod_90) as [Hw Hh].
    assert (Hp : rotated_r_point 100 10 90 (0, 0) = (45, 55)).
    { unfold rotated_r_point, M_center, M_rotation, center_r, center.
      rewrite Hw, Hh. unfold floordiv. simpl fst. simpl snd.
      change (100 / 2 - 100 / 2)%Z with 0%Z.
      change (10 / 2 - 10 / 2)%Z with 0%Z.
      change (100 / 2)%Z with 50%Z. change (10 / 2)%Z with 5%Z.
      unfold transform_point, M_translation, cv2.getRotationMatrix2D,
        np.cos, np.sin. simpl.
      rewrite deg2rad_90, cos_PI2, sin_PI2. f_equal; ring. }
    repeat split; try assumption.
    + rewrite Hh, deg2rad_90, cos_PI2, sin_PI2, Rabs_R0, Rabs_R1. lra.
    + rewrite Hp, Hw, Hh. unfold inside. simpl. lra.
  - pose proof sqrt2_sqr as Hs. pose proof sqrt2_pos as Hpos.
    assert (Hw : width_r 4 7 45 = 8%Z).
    { unfold width_r, teta_rad, np.cos, np.sin. rewrite int_ceil.
      rewrite pymod_small by lra. rewrite deg2rad_45, cos_PI4, sin_PI4.
      apply ceil_11_sqrt2. }
    assert (Hh : height_r 4 7 45 = 8%Z).
    { unfold height_r, teta_rad, np.cos, np.sin. rewrite int_ceil.
      rewrite pymod_small by lra. rewrite deg2rad_45, cos_PI4, sin_PI4.
      apply ceil_11_sqrt2. }
    assert (Hy : snd (rotated_r_point 4 7 45 (0, 6)) = 4 + 5 / sqrt 2).
    { unfold rotated_r_point, M_center, M_rotation, center_r, center.
      rewrite Hw, Hh. unfold floordiv. simpl fst. simpl snd.
      change (8 / 2 - 4 / 2)%Z with 2%Z. change (8 / 2 - 7 / 2)%Z with 1%Z.
      change (8 / 2)%Z with 4%Z.
      unfold transform_point, M_translation, cv2.getRotationMatrix2D,
        np.cos, np.sin. simpl.
      rewrite deg2rad_45, cos_PI4, sin_PI4. field. lra. }
    assert (Hgt : 7 + 1 / 2 < 4 + 5 / sqrt 2).
    { assert (Hi : 5 / sqrt 2 = 5 * sqrt 2 / 2).
      { apply Rmult_eq_reg_r with (r := sqrt 2); [|lra].
        replace (5 / sqrt 2 * sqrt 2) with 5 by (field; lra). nra. }
      rewrite Hi. nra. }
    repeat split; try assumption.
    + rewrite Hy. exact Hgt.
    + rewrite Hw, Hh. unfold inside. rewrite Hy. simpl. lra.
Qed.

(** C4. A rotation by 0 degrees about the centre into a canvas of the same
    size, and a translation by (0, 0), each return a raster equal to the
    source, pixel for pixel. *)
Theorem identity_transformations :
  forall img : Raster,
    is_array img = true ->
    rotated 0 img = Ok img /\ translated 0 0 img = Ok img.
Proof.
  intros img Ha. split.
  - now apply rotated_identity.
  - now apply translated_identity.
Qed.

Lemma identity_transformations_witness :
  is_array two_pixels = true /\
  rotated 0 two_pixels = Ok two_pixels /\
  translated 0 0 two_pixels = Ok two_pixels.
Proof.
  split; [reflexivity|].
  apply (identity_transformations two_pixels). reflexivity.
Defined.

(** C5, as the code has it.  After a translation by integers [(dx, dy)] and
    the translation back by [(-dx, -dy)], a pixel (x, y) of the canvas equals
    the source pixel when [0 <= x + dx < width] and [0 <= y + dy < height],
    that is on [max(0,-dx) .. min(width, width-dx)] by
    [max(0,-dy) .. min(height, height-dy)], and is the border value
    (0, 0, 0) everywhere else. *)
Theorem translated_round_trip :
  forall (img : Raster) (dx dy : Z),
    is_array img = true ->
    exists dst,
      (t <- translated dx dy img ;; translated (- dx) (- dy) t) = Ok dst /\
      shape dst = shape img /\
      forall x y : Z,
        (0 <= x < cols img)%Z -> (0 <= y < rows img)%Z ->
        pixel_at dst x y
        = if ((0 <=? x + dx) && (x + dx <? cols img)
              && (0 <=? y + dy) && (y + dy <? rows img))%Z
          then pixel_at img x y
          else Some cv2.borderValue.
Proof.
  intros img dx dy Ha. destruct (is_array_positive _ Ha) as [Hr Hc].
  unfold rows, cols in Hr, Hc.
  rewrite translated_grid by assumption. simpl bind.
  set (W := length (hd [] img)) in *. set (H := length img) in *.
  set (t := grid W H (fun u v => cv2.sample img (u - dx) (v - dy))).
  assert (Ht : is_array t = true) by (apply is_array_grid; lia).
  assert (HtW : length (hd [] t) = W).
  { apply Nat2Z.inj. apply (cols_grid W H). lia. }
  assert (HtH : length t = H) by apply length_grid.
  rewrite translated_grid by assumption. rewrite HtW, HtH.
  eexists. split; [reflexivity|]. split.
  { rewrite shape_grid by lia. reflexivity. }
  intros x y Hx Hy. unfold rows, cols in Hx, Hy. fold W in Hx. fold H in Hy.
  rewrite pixel_at_grid by assumption.
  replace (x - - dx)%Z with (x + dx)%Z by lia.
  replace (y - - dy)%Z with (y + dy)%Z by lia.
  unfold cv2.sample at 1.
  destruct ((0 <=? x + dx) && (x + dx <? cols img)
            && (0 <=? y + dy) && (y + dy <? rows img))%Z eqn:Hin.
  - rewrite !andb_true_iff in Hin. destruct Hin as [[[H1 H2] H3] H4].
    apply Z.leb_le in H1, H3. apply Z.ltb_lt in H2, H4.
    unfold rows, cols in H2, H4. fold W in H2. fold H in H4.
    unfold t. rewrite pixel_at_grid by lia.
    replace (x + dx - dx)%Z with x by lia.
    replace (y + dy - dy)%Z with y by lia.
    unfold cv2.sample.
    destruct (pixel_at_inside img x y Ha) as [p Hp]; try (unfold rows, cols; lia).
    now rewrite Hp.
  - rewrite pixel_at_outside; [reflexivity|assumption|].
    intros [H1 H2]. unfold t in H1, H2.
    rewrite cols_grid in H1 by lia. rewrite rows_grid in H2.
    assert (Hc' : ((0 <=? x + dx) && (x + dx <? cols img)
                   && (0 <=? y + dy) && (y + dy <? rows img))%Z = true).
    { rewrite !andb_true_iff. unfold rows, cols. fold W. fold H.
      repeat split; try (apply Z.leb_le; lia); apply Z.ltb_lt; lia. }
    congruence.
Qed.

Lemma translated_round_trip_witness :
  is_array two_pixels = true /\
  exists dst,
    (t <- translated 1 0 two_pixels ;; translated (- (1)) (- 0) t) = Ok dst /\
    shape dst = shape two_pixels /\
    forall x y : Z,
      (0 <= x < cols two_pixels)%Z -> (0 <= y < rows two_pixels)%Z ->
      pixel_at dst x y
      = if ((0 <=? x + 1) && (x + 1 <? cols two_pixels)
            && (0 <=? y + 0) && (y + 0 <? rows two_pixels))%Z
        then pixel_at two_pixels x y
        else Some cv2.borderValue.
Proof.
  split; [reflexivity|].
  apply (translated_round_trip two_pixels 1 0). reflexivity.
Defined.

(** C5 as stated fails: with [dx = 1] on a row of two pixels, the pixel
    (1, 0) lies in the region [max(0,dx) .. width] by [max(0,dy) .. height]
    and yet is not the source pixel, and the pixel (0, 0) lies outside that
    region and yet is not the border value. *)
Lemma translated_round_trip_region_wrong :
  (t <- translated 1 0 two_pixels ;; translated (- (1)) (- 0) t)
  = Ok [[(1, 1, 1); (0, 0, 0)]]%Z /\
  (Z.max 0 1 <= 1 < cols two_pixels)%Z /\
  (Z.max 0 0 <= 0 < rows two_pixels)%Z /\
  pixel_at [[(1, 1, 1); (0, 0, 0)]]%Z 1 0 <> pixel_at two_pixels 1 0 /\
  ~ (Z.max 0 1 <= 0)%Z /\
  pixel_at [[(1, 1, 1); (0, 0, 0)]]%Z 0 0 <> Some cv2.borderValue.
Proof.
  assert (H1 : translated 1 0 two_pixels = Ok [[(0, 0, 0); (1, 1, 1)]]%Z)
    by (rewrite translated_grid by reflexivity; reflexivity).
  assert (H2 : translated (- (1)) (- 0) [[(0, 0, 0); (1, 1, 1)]]%Z
               = Ok [[(1, 1, 1); (0, 0, 0)]]%Z)
    by (rewrite translated_grid by reflexivity; reflexivity).
  split; [rewrite H1; simpl bind; exact H2|].
  split; [vm_compute; intuition discriminate|].
  split; [vm_compute; intuition discriminate|].
  split; [vm_compute; discriminate|].
  split; [vm_compute; intuition|].
  vm_compute. discriminate.
Qed.

(** C6. Reflecting twice about the same axis gives the source back, for the
    three axes and for every flip code of [cv2.flip]. *)
Theorem reflected_involutive :
  (forall (a : axis) (img : Raster), reflected a (reflected a img) = img) /\
  (forall (code : Z) (img : Raster),
      cv2.flip (cv2.flip img code) code = img).
Proof.
  assert (H : forall (code : Z) (img : Raster),
             cv2.flip (cv2.flip img code) code = img).
  { intros code img. unfold cv2.flip.
    destruct (code =? 0)%Z; [apply rev_involutive|].
    destruct (0 <? code)%Z; [apply map_rev_involutive|].
    now rewrite map_rev, rev_involutive, map_rev_involutive. }
  split; [|exact H].
  intros a img. unfold reflected. apply H.
Qed.

(** C7.  The reflection about the horizontal axis ([cv2.flip] with code 0,
    the call of line 233) negates the y-mapping: destination pixel (x, y)
    is source pixel (x, height-1-y).  The reflection about the vertical
    axis (a positive code) negates the x-mapping: destination pixel (x, y)
    is source pixel (width-1-x, y).  The reflection about both (a negative
    code) does both. *)
Theorem flip_pixels :
  forall (img : Raster) (x y code : Z),
    is_array img = true ->
    (0 <= x < cols img)%Z -> (0 <= y < rows img)%Z ->
    (code = 0%Z ->
     pixel_at (cv2.flip img code) x y = pixel_at img x (rows img - 1 - y)) /\
    ((0 < code)%Z ->
     pixel_at (cv2.flip img code) x y = pixel_at img (cols img - 1 - x) y) /\
    ((code < 0)%Z ->
     pixel_at (cv2.flip img code) x y
     = pixel_at img (cols img - 1 - x) (rows img - 1 - y)).
Proof.
  intros img x y code Ha Hx Hy. unfold cv2.flip. split; [|split].
  - intros ->. simpl. now apply pixel_at_rev_rows.
  - intros Hc.
    replace (code =? 0)%Z with false by (symmetry; apply Z.eqb_neq; lia).
    replace (0 <? code)%Z with true by (symmetry; apply Z.ltb_lt; lia).
    now apply pixel_at_rev_cols.
  - intros Hc.
    replace (code =? 0)%Z with false by (symmetry; apply Z.eqb_neq; lia).
    replace (0 <? code)%Z with false by (symmetry; apply Z.ltb_ge; lia).
    rewrite pixel_at_rev_rows by (now rewrite rows_map_rev).
    rewrite rows_map_rev. now apply pixel_at_rev_cols.
Qed.

Lemma flip_pixels_witness :
  is_array four_pixels = true /\
  (0 <= 0 < cols four_pixels)%Z /\ (0 <= 0 < rows four_pixels)%Z /\
  pixel_at (cv2.flip four_pixels 0) 0 0
  = pixel_at four_pixels 0 (rows four_pixels - 1 - 0) /\
  pixel_at (cv2.flip four_pixels 1) 0 0
  = pixel_at four_pixels (cols four_pixels - 1 - 0) 0 /\
  pixel_at (cv2.flip four_pixels (-1)) 0 0
  = pixel_at four_pixels (cols four_pixels - 1 - 0) (rows four_pixels - 1 - 0).
Proof.
  assert (Hx : (0 <= 0 < cols four_pixels)%Z)
    by (vm_compute; intuition discriminate).
  assert (Hy : (0 <= 0 < rows four_pixels)%Z)
    by (vm_compute; intuition discriminate).
  split; [reflexivity|]. split; [exact Hx|]. split; [exact Hy|].
  split; [|split].
  - apply (proj1 (flip_pixels four_pixels 0 0 0 eq_refl Hx Hy)). reflexivity.
  - apply (proj1 (proj2 (flip_pixels four_pixels 0 0 1 eq_refl Hx Hy))). lia.
  - apply (proj2 (proj2 (flip_pixels four_pixels 0 0 (-1) eq_refl Hx Hy))).
    lia.
Defined.

(** C3, as the code has it.  A singular matrix is not an error:
    [warpAffine] then fills the destination, of the size asked for, with the
    source pixel (0, 0).  Whatever its arguments, the call either allocates
    one fully populated destination, or raises [cv2.error] and allocates
    nothing. *)
Theorem warp_returns_or_raises :
  (forall (src : Raster) (M : Matrix) (w h : Z),
      is_array src = true -> (0 < w)%Z -> (0 < h)%Z -> det M = 0 ->
      cv2.warpAffine src M (w, h)
      = Ok (grid (Z.to_nat w) (Z.to_nat h) (fun _ _ => cv2.sample src 0 0))) /\
  (forall (M : Matrix) (dsize : Z * Z) (src : ref) (s : store),
      (exists dst w h,
          call (fun img => cv2.warpAffine img M dsize) src s
          = (Ok (length s), s ++ [dst]) /\
          populated w h dst /\ (0 < w)%Z /\ (0 < h)%Z /\
          (((0 < fst dsize)%Z /\ (0 < snd dsize)%Z) -> (w, h) = dsize)) \/
      call (fun img => cv2.warpAffine img M dsize) src s
      = (Raise cv2_error, s)).
Proof.
  split.
  - intros src M w h Ha Hw Hh HD. now apply warpAffine_singular.
  - intros M dsize src s. unfold call.
    destruct (warpAffine_result (deref s src) M dsize)
      as [[dst [w [h [Hrun [Hw [Hh [Hp [_ Hd]]]]]]]]|[Hrun _]];
      rewrite Hrun.
    + left. exists dst, w, h. repeat split; try assumption; apply Hp.
    + now right.
Qed.

Lemma warp_returns_or_raises_witness :
  is_array one_pixel = true /\ (0 < 2)%Z /\ (0 < 1)%Z /\
  det (M_scale 0) = 0 /\
  cv2.warpAffine one_pixel (M_scale 0) (2, 1)%Z
  = Ok (grid (Z.to_nat 2) (Z.to_nat 1) (fun _ _ => cv2.sample one_pixel 0 0)).
Proof.
  split; [reflexivity|]. split; [lia|]. split; [lia|].
  assert (HD : det (M_scale 0) = 0) by (unfold det, M_scale; simpl; ring).
  split; [exact HD|].
  apply (proj1 warp_returns_or_raises one_pixel (M_scale 0) 2%Z 1%Z);
    [reflexivity|lia|lia|exact HD].
Defined.

(** C3 as stated fails: the matrix of a zero scale factor is singular, and
    the warp of a one-pixel image with it raises nothing; it returns an
    image and allocates it. *)
Lemma singular_warp_returns :
  det (M_scale 0) = 0 /\
  cv2.warpAffine one_pixel (M_scale 0) (1, 1)%Z = Ok one_pixel /\
  call (fun img => cv2.warpAffine img (M_scale 0) (1, 1)%Z) 0%nat [one_pixel]
  = (Ok 1%nat, [one_pixel; one_pixel]).
Proof.
  assert (HD : det (M_scale 0) = 0) by (unfold det, M_scale; simpl; ring).
  assert (Hw : cv2.warpAffine one_pixel (M_scale 0) (1, 1)%Z = Ok one_pixel).
  { rewrite warpAffine_singular; [reflexivity|reflexivity|lia|lia|exact HD]. }
  split; [exact HD|]. split; [exact Hw|].
  unfold call. change (deref [one_pixel] 0%nat) with one_pixel. rewrite Hw.
  reflexivity.
Qed.

(** * Further properties of the script *)



(** When the angle is a multiple of 90 degrees the canvas computed on lines
    170-172 has the dimensions of the source, in the same order. *)
Theorem canvas_unchanged_at_right_angles :
  forall (width height k : Z),
    width_r width height (90 * IZR k) = width /\
    height_r width height (90 * IZR k) = height.
Proof.
  intros width height k. apply canvas_aligned.
  unfold pymod. replace (90 * IZR k / 90) with (IZR k) by field.
  rewrite ZfloorZ. ring.
Qed.

(** The translation of lines 92-96 returns an image of the shape of the
    source whose pixel (u, v) is the source pixel (u - Tx, v - Ty), or
    (0, 0, 0) when the source has no such pixel. *)
Theorem translated_pixels :
  forall (img : Raster) (Tx Ty : Z),
    is_array img = true ->
    exists dst,
      translated Tx Ty img = Ok dst /\ shape dst = shape img /\
      forall u v : Z,
        (0 <= u < cols img)%Z -> (0 <= v < rows img)%Z ->
        pixel_at dst u v = Some (cv2.sample img (u - Tx) (v - Ty)).
Proof.
  intros img Tx Ty Ha. destruct (is_array_positive _ Ha) as [Hr Hc].
  unfold rows, cols in Hr, Hc.
  rewrite translated_grid by assumption. eexists.
  split; [reflexivity|]. split.
  - rewrite shape_grid by lia. reflexivity.
  - intros u v Hu Hv. unfold rows, cols in Hu, Hv.
    now rewrite pixel_at_grid by assumption.
Qed.

Lemma translated_pixels_witness :
  is_array two_pixels = true /\
  exists dst,
    translated 50 100 two_pixels = Ok dst /\ shape dst = shape two_pixels /\
    forall u v : Z,
      (0 <= u < cols two_pixels)%Z -> (0 <= v < rows two_pixels)%Z ->
      pixel_at dst u v = Some (cv2.sample two_pixels (u - 50) (v - 100)).
Proof.
  split; [reflexivity|].
  apply (translated_pixels two_pixels 50 100). reflexivity.
Defined.

(** * More on the script *)

(** ** Inverse of a rotation *)

Lemma det_rotation (c : Point) (angle : R) :
  det (cv2.getRotationMatrix2D c angle 1) = 1.
Proof.
  unfold det, cv2.getRotationMatrix2D, np.cos, np.sin. simpl.
  pose proof (sin2_cos2 (np.deg2rad angle)) as H. unfold Rsqr in H. lra.
Qed.

Lemma deg2rad_opp (a : R) : np.deg2rad (- a) = - np.deg2rad a.
Proof. unfold np.deg2rad. ring. Qed.

(** [warpAffine] maps the destination back with the rotation by the
    opposite angle about the same centre. *)
Lemma invert_rotation_point (c p : Point) (angle : R) :
  transform_point (cv2.invert (cv2.getRotationMatrix2D c angle 1)) p
  = transform_point (cv2.getRotationMatrix2D c (- angle) 1) p.
Proof.
  unfold cv2.invert. rewrite det_rotation.
  destruct (Req_dec_T 1 0) as [H|_]; [lra|].
  destruct c as [cx cy], p as [x y].
  unfold transform_point, cv2.getRotationMatrix2D, np.cos, np.sin. simpl.
  rewrite deg2rad_opp, cos_neg, sin_neg.
  pose proof (sin2_cos2 (np.deg2rad angle)) as H. unfold Rsqr in H.
  set (a := cos (np.deg2rad angle)) in *.
  set (b := sin (np.deg2rad angle)) in *.
  f_equal.
  - match goal with
    | |- ?l = ?r => replace l with (r + cx * (b * b + a * a - 1)) by field
    end.
    rewrite H. ring.
  - match goal with
    | |- ?l = ?r => replace l with (r + cy * (b * b + a * a - 1)) by field
    end.
    rewrite H. ring.
Qed.

(** ** Translations *)

Lemma sample_grid (w h : nat) (f : Z -> Z -> Pixel) (x y : Z) :
  (0 < w)%nat -> (0 < h)%nat ->
  cv2.sample (grid w h f) x y
  = if ((0 <=? x) && (x <? Z.of_nat w) && (0 <=? y) && (y <? Z.of_nat h))%Z
    then f x y else cv2.borderValue.
Proof.
  intros Hw Hh. unfold cv2.sample.
  destruct ((0 <=? x) && (x <? Z.of_nat w) && (0 <=? y) && (y <? Z.of_nat h))%Z
    eqn:Hin.
  - rewrite !andb_true_iff in Hin. destruct Hin as [[[H1 H2] H3] H4].
    apply Z.leb_le in H1, H3. apply Z.ltb_lt in H2, H4.
    now rewrite pixel_at_grid by lia.
  - rewrite pixel_at_outside; [reflexivity|now apply is_array_grid|].
    rewrite cols_grid by assumption. rewrite rows_grid. intros [H1 H2].
    assert (Hc : ((0 <=? x) && (x <? Z.of_nat w)
                  && (0 <=? y) && (y <? Z.of_nat h))%Z = true).
    { rewrite !andb_true_iff.
      repeat split; try (apply Z.leb_le; lia); apply Z.ltb_lt; lia. }
    congruence.
Qed.

Lemma sample_inside (img : Raster) (x y : Z) :
  is_array img = true ->
  (0 <= x < cols img)%Z -> (0 <= y < rows img)%Z ->
  pixel_at img x y = Some (cv2.sample img x y).
Proof.
  intros Ha Hx Hy. unfold cv2.sample.
  destruct (pixel_at_inside img x y Ha Hx Hy) as [p Hp]. now rewrite Hp.
Qed.

Lemma sample_outside (img : Raster) (x y : Z) :
  is_array img = true ->
  ~ ((0 <= x < cols img)%Z /\ (0 <= y < rows img)%Z) ->
  cv2.sample img x y = cv2.borderValue.
Proof.
  intros Ha Hout. unfold cv2.sample. now rewrite pixel_at_outside.
Qed.

(** Lines 115-121.  With offsets that are not negative, the canvas enlarged
    by the offsets holds every pixel of the source, moved by the offsets,
    and the opposite translation into a canvas of the size of the source
    gives the source back: nothing is lost. *)
Theorem translation_without_loss :
  forall (img : Raster) (Tx Ty : Z),
    is_array img = true -> (0 <= Tx)%Z -> (0 <= Ty)%Z ->
    (exists mid,
        translated_enlarged Tx Ty img = Ok mid /\
        shape mid = (rows img + Ty, cols img + Tx)%Z /\
        forall x y : Z,
          (0 <= x < cols img)%Z -> (0 <= y < rows img)%Z ->
          pixel_at mid (x + Tx) (y + Ty) = pixel_at img x y) /\
    translated_restored Tx Ty img = Ok img.
Proof.
  intros img Tx Ty Ha HTx HTy. destruct (is_array_positive _ Ha) as [Hr Hc].
  assert (Hmid : cv2.warpAffine img (M_translation Tx Ty)
                   (cols img + Tx, rows img + Ty)%Z
                 = Ok (grid (Z.to_nat (cols img + Tx)) (Z.to_nat (rows img + Ty))
                            (fun u v => cv2.sample img (u - Tx) (v - Ty))))
    by (apply warpAffine_translation; [assumption|lia|lia]).
  split.
  - unfold translated_enlarged, shape. rewrite Hmid. eexists.
    split; [reflexivity|]. split.
    + rewrite rows_grid, cols_grid by lia. now rewrite !Z2Nat.id by lia.
    + intros x y Hx Hy. rewrite pixel_at_grid by lia.
      replace (x + Tx - Tx)%Z with x by lia.
      replace (y + Ty - Ty)%Z with y by lia.
      symmetry. now apply sample_inside.
  - unfold translated_restored, shape. rewrite Hmid. simpl bind.
    rewrite warpAffine_translation;
      [|apply is_array_grid; lia|assumption|assumption].
    f_equal.
    replace (Z.to_nat (cols img)) with (length (hd [] img))
      by (unfold cols; now rewrite Nat2Z.id).
    replace (Z.to_nat (rows img)) with (length img)
      by (unfold rows; now rewrite Nat2Z.id).
    rewrite <- (grid_sample img Ha) at 3.
    apply grid_ext. intros x y Hx Hy.
    rewrite sample_grid by (unfold rows, cols in *; lia).
    replace ((0 <=? x - - Tx) && (x - - Tx <? Z.of_nat (Z.to_nat (cols img + Tx)))
             && (0 <=? y - - Ty)
             && (y - - Ty <? Z.of_nat (Z.to_nat (rows img + Ty))))%Z
      with true.
    + f_equal; lia.
    + symmetry. rewrite !andb_true_iff. unfold rows, cols in *.
      repeat split; try (apply Z.leb_le; lia); apply Z.ltb_lt; lia.
Qed.

Lemma translation_without_loss_witness :
  is_array two_pixels = true /\ (0 <= 50)%Z /\ (0 <= 100)%Z /\
  translated_restored 50 100 two_pixels = Ok two_pixels.
Proof.
  split; [reflexivity|]. split; [lia|]. split; [lia|].
  apply (proj2 (translation_without_loss two_pixels 50 100 eq_refl
                  ltac:(lia) ltac:(lia))).
Defined.

Lemma translated_twice_grid (img : Raster) (Tx1 Ty1 Tx2 Ty2 : Z) :
  is_array img = true ->
  (t <- translated Tx1 Ty1 img ;; translated Tx2 Ty2 t)
  = Ok (grid (length (hd [] img)) (length img)
          (fun u v =>
             if ((0 <=? u - Tx2) && (u - Tx2 <? cols img)
                 && (0 <=? v - Ty2) && (v - Ty2 <? rows img))%Z
             then cv2.sample img (u - Tx2 - Tx1) (v - Ty2 - Ty1)
             else cv2.borderValue)).
Proof.
  intros Ha. destruct (is_array_positive _ Ha) as [Hr Hc].
  unfold rows, cols in Hr, Hc.
  rewrite translated_grid by assumption. simpl bind.
  set (W := length (hd [] img)) in *. set (H := length img) in *.
  set (t := grid W H (fun u v => cv2.sample img (u - Tx1) (v - Ty1))).
  assert (Ht : is_array t = true) by (apply is_array_grid; lia).
  assert (HtW : length (hd [] t) = W).
  { apply Nat2Z.inj. apply (cols_grid W H). lia. }
  assert (HtH : length t = H) by apply length_grid.
  rewrite translated_grid by assumption. rewrite HtW, HtH. f_equal.
  apply grid_ext. intros u v _ _. unfold t.
  rewrite sample_grid by lia. reflexivity.
Qed.

(** Lines 92-112.  Two translations in a row on the same canvas: pixel
    (u, v) is the source pixel (u - Tx1 - Tx2, v - Ty1 - Ty2) when the
    position (u - Tx2, v - Ty2) it had after the first translation is on the
    canvas, and the border value otherwise; what the first translation
    pushed out of the canvas does not come back. *)
Theorem translated_twice_pixels :
  forall (img : Raster) (Tx1 Ty1 Tx2 Ty2 : Z),
    is_array img = true ->
    exists dst,
      (t <- translated Tx1 Ty1 img ;; translated Tx2 Ty2 t) = Ok dst /\
      shape dst = shape img /\
      forall u v : Z,
        (0 <= u < cols img)%Z -> (0 <= v < rows img)%Z ->
        pixel_at dst u v
        = Some (if ((0 <=? u - Tx2) && (u - Tx2 <? cols img)
                    && (0 <=? v - Ty2) && (v - Ty2 <? rows img))%Z
                then cv2.sample img (u - Tx2 - Tx1) (v - Ty2 - Ty1)
                else cv2.borderValue).
Proof.
  intros img Tx1 Ty1 Tx2 Ty2 Ha. destruct (is_array_positive _ Ha) as [Hr Hc].
  rewrite translated_twice_grid by assumption. eexists.
  split; [reflexivity|]. unfold rows, cols in *. split.
  - rewrite shape_grid by lia. reflexivity.
  - intros u v Hu Hv. now rewrite pixel_at_grid by assumption.
Qed.

Lemma translated_twice_pixels_witness :
  is_array two_pixels = true /\
  exists dst,
    (t <- translated 50 100 two_pixels ;; translated (-100) (-50) t) = Ok dst /\
    shape dst = shape two_pixels /\
    forall u v : Z,
      (0 <= u < cols two_pixels)%Z -> (0 <= v < rows two_pixels)%Z ->
      pixel_at dst u v
      = Some (if ((0 <=? u - -100) && (u - -100 <? cols two_pixels)
                  && (0 <=? v - -50) && (v - -50 <? rows two_pixels))%Z
              then cv2.sample two_pixels (u - -100 - 50) (v - -50 - 100)
              else cv2.borderValue).
Proof.
  split; [reflexivity|].
  apply (translated_twice_pixels two_pixels 50 100 (-100) (-50)). reflexivity.
Defined.

(** Two translations that go the same way along each axis add up: the
    result is the translation by the sum of the offsets. *)
Theorem translations_same_direction :
  forall (img : Raster) (Tx1 Ty1 Tx2 Ty2 : Z),
    is_array img = true -> (0 <= Tx1 * Tx2)%Z -> (0 <= Ty1 * Ty2)%Z ->
    (t <- translated Tx1 Ty1 img ;; translated Tx2 Ty2 t)
    = translated (Tx1 + Tx2) (Ty1 + Ty2) img.
Proof.
  intros img Tx1 Ty1 Tx2 Ty2 Ha HTx HTy.
  rewrite translated_twice_grid, translated_grid by assumption. f_equal.
  apply grid_ext. intros u v Hu Hv.
  replace (u - (Tx1 + Tx2))%Z with (u - Tx2 - Tx1)%Z by lia.
  replace (v - (Ty1 + Ty2))%Z with (v - Ty2 - Ty1)%Z by lia.
  destruct ((0 <=? u - Tx2) && (u - Tx2 <? cols img)
            && (0 <=? v - Ty2) && (v - Ty2 <? rows img))%Z eqn:Hin;
    [reflexivity|].
  symmetry. apply sample_outside; [assumption|].
  intros [H1 H2]. unfold rows, cols in *.
  assert (Hc : ((0 <=? u - Tx2) && (u - Tx2 <? Z.of_nat (length (hd [] img)))
                && (0 <=? v - Ty2)
                && (v - Ty2 <? Z.of_nat (length img)))%Z = true).
  { rewrite !andb_true_iff.
    repeat split; try (apply Z.leb_le; nia); apply Z.ltb_lt; nia. }
  congruence.
Qed.

Lemma translations_same_direction_witness :
  is_array two_pixels = true /\ (0 <= 50 * 1)%Z /\ (0 <= 100 * 0)%Z /\
  (t <- translated 50 100 two_pixels ;; translated 1 0 t)
  = translated (50 + 1) (100 + 0) two_pixels.
Proof.
  split; [reflexivity|]. split; [lia|]. split; [lia|].
  apply (translations_same_direction two_pixels 50 100 1 0);
    [reflexivity|lia|lia].
Defined.

(** ** Rotations *)

Lemma rotated_grid (img : Raster) (angle : R) :
  is_array img = true ->
  rotated angle img
  = Ok (grid (length (hd [] img)) (length img)
          (fun u v =>
             cv2.bilinear img
               (transform_point
                  (cv2.getRotationMatrix2D
                     (IZR (floordiv (cols img) 2), IZR (floordiv (rows img) 2))
                     (- angle) 1)
                  (IZR u, IZR v)))).
Proof.
  intros Ha. destruct (is_array_positive _ Ha) as [Hr Hc].
  unfold rotated, shape. rewrite warpAffine_ok by assumption.
  replace (Z.to_nat (cols img)) with (length (hd [] img))
    by (unfold cols; now rewrite Nat2Z.id).
  replace (Z.to_nat (rows img)) with (length img)
    by (unfold rows; now rewrite Nat2Z.id).
  f_equal. apply grid_ext. intros u v _ _.
  unfold M_rotation, center. simpl fst. simpl snd.
  now rewrite invert_rotation_point.
Qed.

(** Lines 151-153.  Whatever the angle, the rotation about the centre
    returns an image of the shape of the source that holds, at
    (width // 2, height // 2), the pixel the source holds there. *)
Theorem rotated_keeps_center :
  forall (img : Raster) (angle : R),
    is_array img = true ->
    exists dst,
      rotated angle img = Ok dst /\ shape dst = shape img /\
      pixel_at dst (floordiv (cols img) 2) (floordiv (rows img) 2)
      = pixel_at img (floordiv (cols img) 2) (floordiv (rows img) 2).
Proof.
  intros img angle Ha. destruct (is_array_positive _ Ha) as [Hr Hc].
  rewrite rotated_grid by assumption. eexists. split; [reflexivity|].
  split.
  - rewrite shape_grid by (unfold rows in Hr; lia). reflexivity.
  - pose proof (half_inside _ Hc) as Hx. pose proof (half_inside _ Hr) as Hy.
    rewrite pixel_at_grid by (unfold rows, cols in *; assumption).
    rewrite rotation_center_fixed, bilinear_integer.
    symmetry. now apply sample_inside.
Qed.

Lemma rotated_keeps_center_witness :
  is_array two_pixels = true /\
  exists dst,
    rotated 45 two_pixels = Ok dst /\ shape dst = shape two_pixels /\
    pixel_at dst (floordiv (cols two_pixels) 2) (floordiv (rows two_pixels) 2)
    = pixel_at two_pixels (floordiv (cols two_pixels) 2)
                          (floordiv (rows two_pixels) 2).
Proof.
  split; [reflexivity|].
  apply (rotated_keeps_center two_pixels 45). reflexivity.
Defined.

Lemma deg2rad_180 : np.deg2rad 180 = PI.
Proof. unfold np.deg2rad. field. Qed.

Lemma is_array_rev (img : Raster) :
  is_array img = true -> is_array (rev img) = true.
Proof.
  intros Ha. pose proof (is_array_rows _ Ha) as Hrows.
  destruct (is_array_positive _ Ha) as [Hr Hc].
  rewrite Forall_forall in Hrows.
  assert (Hhd : length (hd [] (rev img)) = length (hd [] img)).
  { destruct (rev img) as [|row rest] eqn:Hrev.
    - apply (f_equal (@length _)) in Hrev. rewrite length_rev in Hrev.
      unfold rows in Hr. simpl in Hrev. lia.
    - simpl. apply Hrows. apply in_rev. rewrite Hrev. now left. }
  unfold is_array, rows, cols in *. rewrite Hhd, length_rev.
  rewrite !andb_true_iff. repeat split; try (now apply Z.ltb_lt).
  apply forallb_forall. intros row Hin. apply Nat.eqb_eq.
  apply Hrows. now apply in_rev.
Qed.

Lemma cols_rev (img : Raster) :
  is_array img = true -> cols (rev img) = cols img.
Proof.
  intros Ha. pose proof (is_array_rows _ Ha) as Hrows.
  destruct (is_array_positive _ Ha) as [Hr Hc].
  rewrite Forall_forall in Hrows. unfold cols. f_equal.
  destruct (rev img) as [|row rest] eqn:Hrev.
  - apply (f_equal (@length _)) in Hrev. rewrite length_rev in Hrev.
    unfold rows in Hr. simpl in Hrev. lia.
  - simpl. apply Hrows. apply in_rev. rewrite Hrev. now left.
Qed.

(** Two arrays of the same shape with the same pixels are equal. *)
Lemma raster_ext (a b : Raster) :
  is_array a = true -> is_array b = true -> shape a = shape b ->
  (forall x y : Z, (0 <= x < cols a)%Z -> (0 <= y < rows a)%Z ->
                   pixel_at a x y = pixel_at b x y) ->
  a = b.
Proof.
  intros Ha Hb Hs Hp. unfold shape in Hs. inversion Hs as [[Hr Hc]].
  rewrite <- (grid_sample a Ha), <- (grid_sample b Hb).
  unfold rows, cols in Hr, Hc. apply Nat2Z.inj in Hr, Hc.
  rewrite <- Hr, <- Hc. apply grid_ext. intros x y Hx Hy.
  unfold cv2.sample. rewrite Hp by (unfold rows, cols; assumption).
  reflexivity.
Qed.

(** Lines 151-153 with an angle of 180 degrees.  Pixel (u, v) of the result
    is the source pixel (2 (width // 2) - u, 2 (height // 2) - v), black
    when the source has none.  For an image of odd width and odd height
    this is the reflection in both directions; for an even width the first
    column of the result is black. *)
Theorem rotated_180 :
  forall img : Raster,
    is_array img = true ->
    exists dst,
      rotated 180 img = Ok dst /\ shape dst = shape img /\
      (forall u v : Z,
          (0 <= u < cols img)%Z -> (0 <= v < rows img)%Z ->
          pixel_at dst u v
          = Some (cv2.sample img (2 * floordiv (cols img) 2 - u)
                                 (2 * floordiv (rows img) 2 - v))) /\
      (Z.odd (cols img) = true -> Z.odd (rows img) = true ->
       dst = reflected both img) /\
      (Z.even (cols img) = true ->
       forall v : Z, (0 <= v < rows img)%Z ->
                     pixel_at dst 0 v = Some cv2.borderValue).
Proof.
  intros img Ha. destruct (is_array_positive _ Ha) as [Hr Hc].
  rewrite rotated_grid by assumption.
  set (dst := grid _ _ _).
  assert (Hpix : forall u v : Z,
             (0 <= u < cols img)%Z -> (0 <= v < rows img)%Z ->
             pixel_at dst u v
             = Some (cv2.sample img (2 * floordiv (cols img) 2 - u)
                                    (2 * floordiv (rows img) 2 - v))).
  { intros u v Hu Hv. unfold dst.
    rewrite pixel_at_grid by (unfold rows, cols in *; assumption).
    f_equal. rewrite <- bilinear_integer. f_equal.
    unfold transform_point, cv2.getRotationMatrix2D, np.cos, np.sin.
    cbn [fst snd m00 m01 m02 m10 m11 m12].
    rewrite deg2rad_opp, deg2rad_180, cos_neg, sin_neg, cos_PI, sin_PI.
    rewrite !minus_IZR, !mult_IZR. f_equal; ring. }
  assert (Hshape : shape dst = shape img).
  { unfold dst. rewrite shape_grid by (unfold rows in Hr; lia). reflexivity. }
  exists dst. split; [reflexivity|]. split; [exact Hshape|].
  split; [exact Hpix|]. split.
  - intros Hoc Hor.
    assert (Hw : (2 * floordiv (cols img) 2 = cols img - 1)%Z).
    { unfold floordiv. rewrite (Zodd_div2 (cols img)) at 2
        by (now apply Zodd_bool_iff).
      rewrite Z.div2_div. lia. }
    assert (Hh : (2 * floordiv (rows img) 2 = rows img - 1)%Z).
    { unfold floordiv. rewrite (Zodd_div2 (rows img)) at 2
        by (now apply Zodd_bool_iff).
      rewrite Z.div2_div. lia. }
    assert (Hb : reflected both img = rev (map (@rev Pixel) img))
      by reflexivity.
    apply raster_ext.
    + unfold dst. apply is_array_grid; unfold rows, cols in *; lia.
    + rewrite Hb. apply is_array_rev. now apply is_array_map_rev.
    + rewrite Hshape, Hb. unfold shape.
      rewrite rows_rev, rows_map_rev, cols_rev, cols_map_rev;
        [reflexivity|now apply is_array_map_rev].
    + inversion Hshape as [[Hr' Hc']]. rewrite Hr', Hc'.
      intros x y Hx Hy. rewrite Hpix by assumption. rewrite Hw, Hh, Hb.
      rewrite pixel_at_rev_rows by (now rewrite rows_map_rev).
      rewrite rows_map_rev, pixel_at_rev_cols by assumption.
      symmetry. apply sample_inside; [assumption|lia|lia].
  - intros Hec v Hv. rewrite Hpix by lia. f_equal.
    apply sample_outside; [assumption|].
    assert (Hw : (2 * floordiv (cols img) 2 = cols img)%Z).
    { unfold floordiv. rewrite (Zeven_div2 (cols img)) at 2
        by (now apply Zeven_bool_iff).
      rewrite Z.div2_div. lia. }
    lia.
Qed.

Lemma rotated_180_witness :
  is_array one_pixel = true /\
  exists dst,
    rotated 180 one_pixel = Ok dst /\ shape dst = shape one_pixel /\
    (Z.odd (cols one_pixel) = true -> Z.odd (rows one_pixel) = true ->
     dst = reflected both one_pixel).
Proof.
  split; [reflexivity|].
  destruct (rotated_180 one_pixel eq_refl) as [dst [H1 [H2 [_ [H3 _]]]]].
  exists dst. repeat split; assumption.
Defined.

(** Lines 151-153 with an angle of 90 degrees.  Pixel (u, v) of the result
    is the source pixel (cx + cy - v, u - cx + cy), where (cx, cy) is
    (width // 2, height // 2); on a square image of odd side it is the
    source pixel (width - 1 - v, u): the image turns a quarter of a turn
    anticlockwise, as the comment on lines 159-160 says of positive angles. *)
Theorem rotated_90 :
  forall img : Raster,
    is_array img = true ->
    exists dst,
      rotated 90 img = Ok dst /\ shape dst = shape img /\
      (forall u v : Z,
          (0 <= u < cols img)%Z -> (0 <= v < rows img)%Z ->
          pixel_at dst u v
          = Some (cv2.sample img
                    (floordiv (cols img) 2 + floordiv (rows img) 2 - v)
                    (u - floordiv (cols img) 2 + floordiv (rows img) 2))) /\
      (cols img = rows img -> Z.odd (cols img) = true ->
       forall u v : Z,
         (0 <= u < cols img)%Z -> (0 <= v < rows img)%Z ->
         pixel_at dst u v = pixel_at img (cols img - 1 - v) u).
Proof.
  intros img Ha. destruct (is_array_positive _ Ha) as [Hr Hc].
  rewrite rotated_grid by assumption.
  set (dst := grid _ _ _).
  assert (Hpix : forall u v : Z,
             (0 <= u < cols img)%Z -> (0 <= v < rows img)%Z ->
             pixel_at dst u v
             = Some (cv2.sample img
                       (floordiv (cols img) 2 + floordiv (rows img) 2 - v)
                       (u - floordiv (cols img) 2 + floordiv (rows img) 2))).
  { intros u v Hu Hv. unfold dst.
    rewrite pixel_at_grid by (unfold rows, cols in *; assumption).
    f_equal. rewrite <- bilinear_integer. f_equal.
    unfold transform_point, cv2.getRotationMatrix2D, np.cos, np.sin.
    cbn [fst snd m00 m01 m02 m10 m11 m12].
    rewrite deg2rad_opp, deg2rad_90, cos_neg, sin_neg, cos_PI2, sin_PI2.
    rewrite !plus_IZR, !minus_IZR, !plus_IZR. f_equal; ring. }
  exists dst. split; [reflexivity|]. split.
  { unfold dst. rewrite shape_grid by (unfold rows in Hr; lia). reflexivity. }
  split; [exact Hpix|].
  intros Hsq Hodd u v Hu Hv. rewrite Hpix by assumption.
  assert (Hw : (2 * floordiv (cols img) 2 = cols img - 1)%Z).
  { unfold floordiv. rewrite (Zodd_div2 (cols img)) at 2
      by (now apply Zodd_bool_iff).
    rewrite Z.div2_div. lia. }
  rewrite <- Hsq.
  replace (floordiv (cols img) 2 + floordiv (cols img) 2 - v)%Z
    with (cols img - 1 - v)%Z by lia.
  replace (u - floordiv (cols img) 2 + floordiv (cols img) 2)%Z
    with u by lia.
  symmetry. apply sample_inside; [assumption|lia|lia].
Qed.

Lemma rotated_90_witness :
  is_array one_pixel = true /\
  exists dst,
    rotated 90 one_pixel = Ok dst /\ shape dst = shape one_pixel /\
    (cols one_pixel = rows one_pixel -> Z.odd (cols one_pixel) = true ->
     forall u v : Z,
       (0 <= u < cols one_pixel)%Z -> (0 <= v < rows one_pixel)%Z ->
       pixel_at dst u v = pixel_at one_pixel (cols one_pixel - 1 - v) u).
Proof.
  split; [reflexivity|].
  destruct (rotated_90 one_pixel eq_refl) as [dst [H1 [H2 [_ H3]]]].
  exists dst. repeat split; assumption.
Defined.

(** Lines 137-140.  The matrix written out by hand is the one
    [cv2.getRotationMatrix2D] gives for the opposite angle about the origin:
    the two rotations of the script turn opposite ways.  The rotation about
    the origin returns an image of the shape of the source with the same
    pixel at (0, 0), whatever the angle. *)
Theorem rotation_origin_convention :
  forall angle : R,
    M_rotation_origin angle = cv2.getRotationMatrix2D (0, 0) (- angle) 1 /\
    forall img : Raster,
      is_array img = true ->
      exists dst,
        rotated_origin angle img = Ok dst /\ shape dst = shape img /\
        pixel_at dst 0 0 = pixel_at img 0 0.
Proof.
  intros angle.
  assert (HM : M_rotation_origin angle
               = cv2.getRotationMatrix2D (0, 0) (- angle) 1).
  { unfold M_rotation_origin, cv2.getRotationMatrix2D, np.cos, np.sin.
    cbn [fst snd]. rewrite deg2rad_opp, cos_neg, sin_neg. f_equal; ring. }
  split; [exact HM|].
  intros img Ha. destruct (is_array_positive _ Ha) as [Hr Hc].
  unfold rotated_origin, shape. rewrite warpAffine_ok by assumption.
  eexists. split; [reflexivity|]. split.
  - rewrite rows_grid, cols_grid by lia. now rewrite !Z2Nat.id by lia.
  - rewrite pixel_at_grid by lia.
    rewrite HM, invert_rotation_point.
    change (IZR 0, IZR 0) with ((0, 0) : Point).
    rewrite rotation_center_fixed.
    change ((0, 0) : Point) with (IZR 0, IZR 0).
    rewrite bilinear_integer. symmetry. apply sample_inside; [assumption|lia|lia].
Qed.

Lemma rotation_origin_convention_witness :
  is_array two_pixels = true /\
  exists dst,
    rotated_origin 45 two_pixels = Ok dst /\ shape dst = shape two_pixels /\
    pixel_at dst 0 0 = pixel_at two_pixels 0 0.
Proof.
  split; [reflexivity|].
  apply (proj2 (rotation_origin_convention 45) two_pixels). reflexivity.
Defined.

(** ** Resizing *)

Lemma Zceil_div (n k : Z) :
  (0 < k)%Z -> Zceil (IZR n * (1 / IZR k)) = ((n + k - 1) / k)%Z.
Proof.
  intros Hk. apply Zceil_eq.
  assert (Hq : (k * ((n + k - 1) / k) <= n + k - 1
                < k * ((n + k - 1) / k) + k)%Z)
    by (Z.div_mod_to_equations; nia).
  set (q := ((n + k - 1) / k)%Z) in *. destruct Hq as [H1 H2].
  assert (H1' : (k * q - k < n)%Z) by lia.
  assert (H2' : (n <= k * q)%Z) by lia.
  apply IZR_lt in H1', Hk. apply IZR_le in H2'.
  rewrite minus_IZR, mult_IZR in H1'. rewrite mult_IZR in H2'.
  replace (IZR n * (1 / IZR k)) with (IZR n / IZR k) by (field; lra).
  split.
  - apply Rmult_lt_reg_r with (r := IZR k); [assumption|].
    replace (IZR n / IZR k * IZR k) with (IZR n) by (field; lra). lra.
  - apply Rmult_le_reg_r with (r := IZR k); [assumption|].
    replace (IZR n / IZR k * IZR k) with (IZR n) by (field; lra). lra.
Qed.

Lemma invert_scale_point (k u v : Z) :
  (0 < k)%Z ->
  transform_point (cv2.invert (M_scale (1 / IZR k))) (IZR u, IZR v)
  = (IZR (k * u), IZR (k * v)).
Proof.
  intros Hk. apply IZR_lt in Hk.
  unfold cv2.invert, det, M_scale. cbn [m00 m01 m02 m10 m11 m12].
  destruct (Req_dec_T (1 * (1 / IZR k) * (1 * (1 / IZR k)) - 0 * 0) 0)
    as [H0|_].
  - exfalso.
    assert (Hi : 0 < 1 / IZR k) by (apply Rdiv_lt_0_compat; lra).
    nra.
  - unfold transform_point. cbn [fst snd m00 m01 m02 m10 m11 m12].
    rewrite !mult_IZR. f_equal; field; lra.
Qed.

(** In exact arithmetic, the warp with the scale [1 / k] maps the
    destination pixel (u, v) back to the source pixel (k u, k v). *)
Lemma resized_inverse_scale :
  forall (img : Raster) (k : Z),
    is_array img = true -> (0 < k)%Z ->
    exists dst,
      resized (1 / IZR k) img = Ok dst /\
      shape dst = ((rows img + k - 1) / k, (cols img + k - 1) / k)%Z /\
      forall u v : Z,
        (0 <= u < (cols img + k - 1) / k)%Z ->
        (0 <= v < (rows img + k - 1) / k)%Z ->
        (0 <= k * u < cols img)%Z /\ (0 <= k * v < rows img)%Z /\
        pixel_at dst u v = pixel_at img (k * u) (k * v).
Proof.
  intros img k Ha Hk. destruct (is_array_positive _ Ha) as [Hr Hc].
  assert (Hwp : (0 < (cols img + k - 1) / k)%Z)
    by (Z.div_mod_to_equations; nia).
  assert (Hhp : (0 < (rows img + k - 1) / k)%Z)
    by (Z.div_mod_to_equations; nia).
  unfold resized, shape. rewrite !int_ceil, !Zceil_div by assumption.
  rewrite warpAffine_ok by assumption. eexists. split; [reflexivity|].
  split.
  - rewrite rows_grid, cols_grid by lia. now rewrite !Z2Nat.id by lia.
  - intros u v Hu Hv.
    assert (Hku : (0 <= k * u < cols img)%Z)
      by (Z.div_mod_to_equations; nia).
    assert (Hkv : (0 <= k * v < rows img)%Z)
      by (Z.div_mod_to_equations; nia).
    split; [exact Hku|]. split; [exact Hkv|].
    rewrite pixel_at_grid by lia.
    rewrite invert_scale_point, bilinear_integer by assumption.
    symmetry. now apply sample_inside.
Qed.

(** Lines 204-208 with a scale that is a power of two, [scale = 2^-n] with
    [n <= 126] (the script has 0.5): these scales, and the products and
    the inverse computed with them, are exact in float32 and float64.  The
    result has ((height + 2^n - 1) // 2^n) rows and
    ((width + 2^n - 1) // 2^n) columns and its pixel (u, v) is the source
    pixel (2^n u, 2^n v), which always exists: the image is subsampled,
    nothing is interpolated and no border shows. *)
Theorem resized_by_power_of_two :
  forall (img : Raster) (n : nat),
    is_array img = true -> (n <= 126)%nat ->
    exists dst,
      resized (1 / IZR (2 ^ Z.of_nat n)) img = Ok dst /\
      shape dst = ((rows img + 2 ^ Z.of_nat n - 1) / 2 ^ Z.of_nat n,
                   (cols img + 2 ^ Z.of_nat n - 1) / 2 ^ Z.of_nat n)%Z /\
      forall u v : Z,
        (0 <= u < (cols img + 2 ^ Z.of_nat n - 1) / 2 ^ Z.of_nat n)%Z ->
        (0 <= v < (rows img + 2 ^ Z.of_nat n - 1) / 2 ^ Z.of_nat n)%Z ->
        (0 <= 2 ^ Z.of_nat n * u < cols img)%Z /\
        (0 <= 2 ^ Z.of_nat n * v < rows img)%Z /\
        pixel_at dst u v
        = pixel_at img (2 ^ Z.of_nat n * u) (2 ^ Z.of_nat n * v).
Proof.
  intros img n Ha _. apply resized_inverse_scale; [assumption|].
  apply Z.pow_pos_nonneg; lia.
Qed.

Lemma resized_by_power_of_two_witness :
  is_array four_pixels = true /\ (1 <= 126)%nat /\
  exists dst,
    resized (1 / IZR (2 ^ Z.of_nat 1)) four_pixels = Ok dst /\
    shape dst = ((rows four_pixels + 2 ^ Z.of_nat 1 - 1) / 2 ^ Z.of_nat 1,
                 (cols four_pixels + 2 ^ Z.of_nat 1 - 1) / 2 ^ Z.of_nat 1)%Z /\
    forall u v : Z,
      (0 <= u < (cols four_pixels + 2 ^ Z.of_nat 1 - 1) / 2 ^ Z.of_nat 1)%Z ->
      (0 <= v < (rows four_pixels + 2 ^ Z.of_nat 1 - 1) / 2 ^ Z.of_nat 1)%Z ->
      (0 <= 2 ^ Z.of_nat 1 * u < cols four_pixels)%Z /\
      (0 <= 2 ^ Z.of_nat 1 * v < rows four_pixels)%Z /\
      pixel_at dst u v
      = pixel_at four_pixels (2 ^ Z.of_nat 1 * u) (2 ^ Z.of_nat 1 * v).
Proof.
  split; [reflexivity|]. split; [lia|].
  apply (resized_by_power_of_two four_pixels 1); [reflexivity|lia].
Defined.

(** ** Reflections *)

Lemma is_array_flip (img : Raster) (code : Z) :
  is_array img = true -> is_array (cv2.flip img code) = true.
Proof.
  intros Ha. unfold cv2.flip.
  destruct (code =? 0)%Z; [now apply is_array_rev|].
  destruct (0 <? code)%Z; [now apply is_array_map_rev|].
  apply is_array_rev. now apply is_array_map_rev.
Qed.

(** Lines 230-233.  [cv2.flip] keeps the shape of an array, and its codes
    compose: the horizontal and the vertical reflection, in either order,
    give the reflection in both directions, and following the reflection in
    both directions by one of the two gives the other. *)
Theorem reflections_compose :
  (forall (img : Raster) (code : Z),
      is_array img = true ->
      is_array (cv2.flip img code) = true /\
      shape (cv2.flip img code) = shape img) /\
  (forall img : Raster,
      reflected horizontal (reflected vertical img) = reflected both img /\
      reflected vertical (reflected horizontal img) = reflected both img /\
      reflected horizontal (reflected both img) = reflected vertical img /\
      reflected vertical (reflected both img) = reflected horizontal img).
Proof.
  split.
  - intros img code Ha. split; [now apply is_array_flip|].
    unfold cv2.flip, shape.
    destruct (code =? 0)%Z; [now rewrite rows_rev, cols_rev|].
    destruct (0 <? code)%Z; [now rewrite rows_map_rev, cols_map_rev|].
    rewrite rows_rev, rows_map_rev, cols_rev, cols_map_rev;
      [reflexivity|now apply is_array_map_rev].
  - intros img. unfold reflected, cv2.flip, flipCode. simpl.
    repeat split.
    + apply map_rev.
    + rewrite <- map_rev. now rewrite map_rev_involutive.
    + now rewrite rev_involutive.
Qed.

Lemma reflections_compose_witness :
  is_array two_pixels = true /\
  is_array (cv2.flip two_pixels 0) = true /\
  shape (cv2.flip two_pixels 0) = shape two_pixels.
Proof.
  split; [reflexivity|].
  apply (proj1 reflections_compose two_pixels 0%Z). reflexivity.
Defined.

(** ** Rotation without loss *)

(** Lines 169-181.  On an array the two warps never raise and the result
    has [height_r] rows and [width_r] columns, whatever the angle; for an
    angle of 0 it is the source itself. *)
Theorem rotated_r_shape :
  forall (img : Raster) (teta : R),
    is_array img = true ->
    (exists dst,
        rotated_r teta img = Ok dst /\ is_array dst = true /\
        shape dst = (height_r (cols img) (rows img) teta,
                     width_r (cols img) (rows img) teta)) /\
    rotated_r 0 img = Ok img.
Proof.
  intros img teta Ha. destruct (is_array_positive _ Ha) as [Hr Hc].
  split.
  - destruct (canvas_positive (cols img) (rows img) teta Hc Hr) as [Hwr Hhr].
    unfold rotated_r, shape. rewrite warpAffine_ok by assumption.
    simpl bind.
    rewrite warpAffine_ok;
      [|apply is_array_grid; lia|assumption|assumption].
    eexists. split; [reflexivity|]. split.
    + apply is_array_grid; lia.
    + rewrite rows_grid, cols_grid by lia. now rewrite !Z2Nat.id by lia.
  - assert (H0 : pymod 0 90 = 0) by (apply pymod_small; lra).
    destruct (canvas_aligned (cols img) (rows img) 0 H0) as [Hw Hh].
    unfold rotated_r, shape, M_center, center_r, center.
    rewrite Hw, Hh, M_rotation_0. simpl fst. simpl snd.
    rewrite !Z.sub_diag.
    pose proof (translated_identity img Ha) as Hid.
    unfold translated, shape in Hid. rewrite Hid. simpl bind. exact Hid.
Qed.

Lemma rotated_r_shape_witness :
  is_array two_pixels = true /\ rotated_r 0 two_pixels = Ok two_pixels.
Proof.
  split; [reflexivity|].
  apply (proj2 (rotated_r_shape two_pixels 45 eq_refl)).
Defined.

(** * Basic operations on images *)

(** ** Channels *)

Lemma zip3_map (f1 f2 f3 : Pixel -> Z) (row : list Pixel) :
  zip3 (map f1 row) (map f2 row) (map f3 row)
  = map (fun p => (f1 p, f2 p, f3 p)) row.
Proof. induction row as [|p row IH]; simpl; [reflexivity|now rewrite IH]. Qed.

Lemma zip3_rows_map (f1 f2 f3 : Pixel -> Z) (img : Raster) :
  zip3_rows (map (map f1) img) (map (map f2) img) (map (map f3) img)
  = map (map (fun p => (f1 p, f2 p, f3 p))) img.
Proof.
  induction img as [|row img IH]; simpl; [reflexivity|].
  now rewrite IH, zip3_map.
Qed.

Lemma same_shape_map (f1 f2 : Pixel -> Z) (img : Raster) :
  same_shape (map (map f1) img) (map (map f2) img) = true.
Proof.
  unfold same_shape, plane_shape. simpl fst. simpl snd.
  rewrite !length_map. apply andb_true_iff. split; apply Z.eqb_eq.
  - reflexivity.
  - destruct img; simpl; [reflexivity|now rewrite !length_map].
Qed.

Lemma merge_map (f1 f2 f3 : Pixel -> Z) (img : Raster) :
  is_array img = true ->
  cv2_merge (map (map f1) img) (map (map f2) img) (map (map f3) img)
  = Ok (map (map (fun p => (f1 p, f2 p, f3 p))) img).
Proof.
  intros Ha. destruct (is_array_positive _ Ha) as [Hr Hc].
  unfold cv2_merge. rewrite !same_shape_map.
  replace ((0 <? fst (plane_shape (map (map f1) img)))
           && (0 <? snd (plane_shape (map (map f1) img))))%Z with true.
  - simpl. now rewrite zip3_rows_map.
  - symmetry. unfold plane_shape, rows, cols in *. simpl fst. simpl snd.
    rewrite length_map. apply andb_true_iff. split; apply Z.ltb_lt.
    + assumption.
    + destruct img; simpl in *; [lia|now rewrite length_map].
Qed.

Lemma map_map_id (img : Raster) (f : Pixel -> Pixel) :
  (forall p, f p = p) -> map (map f) img = img.
Proof.
  intros Hf. rewrite <- (map_id img) at 2. apply map_ext. intros row.
  rewrite <- (map_id row) at 2. now apply map_ext.
Qed.

Lemma is_plane_same_shape (w h : nat) (p q : Plane) :
  is_plane w h p -> is_plane w h q -> same_shape p q = true.
Proof.
  intros [Hp Hpr] [Hq Hqr]. unfold same_shape, plane_shape.
  simpl fst. simpl snd. apply andb_true_iff. split; apply Z.eqb_eq.
  - now rewrite Hp, Hq.
  - destruct p as [|x p], q as [|y q]; simpl in *; try reflexivity;
      try (subst h; discriminate).
    inversion Hpr. inversion Hqr. congruence.
Qed.

Lemma split_zip3 (x y z : list Z) :
  length x = length y -> length x = length z ->
  map blue (zip3 x y z) = x /\ map green (zip3 x y z) = y /\
  map red (zip3 x y z) = z.
Proof.
  revert y z. induction x as [|a x IH]; intros [|b y] [|c z] Hy Hz;
    simpl in *; try discriminate; [now repeat split|].
  destruct (IH y z) as [H1 [H2 H3]]; [lia|lia|].
  unfold blue, green, red in *. simpl. now rewrite H1, H2, H3.
Qed.

Lemma split_zip3_rows (w h : nat) (b g r : Plane) :
  is_plane w h b -> is_plane w h g -> is_plane w h r ->
  cv2_split (zip3_rows b g r) = (b, g, r).
Proof.
  revert h g r. induction b as [|x b IH]; intros h [|y g] [|z r]
    [Hb Hbr] [Hg Hgr] [Hr Hrr]; simpl in *; try reflexivity;
    try (subst h; discriminate).
  inversion Hbr as [|? ? Hx Hbr']. inversion Hgr as [|? ? Hy Hgr'].
  inversion Hrr as [|? ? Hz Hrr']. subst.
  destruct (split_zip3 x y z) as [H1 [H2 H3]]; [congruence|congruence|].
  specialize (IH (length b) g r).
  unfold cv2_split in *. simpl.
  assert (IH' : (map (map blue) (zip3_rows b g r),
                 map (map green) (zip3_rows b g r),
                 map (map red) (zip3_rows b g r)) = (b, g, r)).
  { apply IH; split; try assumption; try reflexivity; lia. }
  injection IH' as E1 E2 E3. now rewrite H1, H2, H3, E1, E2, E3.
Qed.

(** Lines 207-208.  Merging the channels a non-empty image was split into
    gives the image back; splitting the merge of three non-empty planes of
    the same size gives the three planes back; and merging with an empty
    first plane raises [cv2.error]. *)
Theorem split_merge_round_trip :
  (forall roi : Raster, is_array roi = true -> merged roi = Ok roi) /\
  (forall (w h : nat) (b g r : Plane),
      (0 < w)%nat -> (0 < h)%nat ->
      is_plane w h b -> is_plane w h g -> is_plane w h r ->
      exists img, cv2_merge b g r = Ok img /\ cv2_split img = (b, g, r)) /\
  (forall g r : Plane, cv2_merge [] g r = Raise cv2_error).
Proof.
  split; [|split].
  - intros roi Ha. unfold merged, cv2_split. rewrite merge_map by assumption.
    apply (f_equal (@Ok Raster)).
    apply map_map_id. now intros [[x y] z].
  - intros w h b g r Hw Hh Hb Hg Hr. unfold cv2_merge.
    rewrite (is_plane_same_shape w h b g), (is_plane_same_shape w h b r)
      by assumption.
    replace ((0 <? fst (plane_shape b)) && (0 <? snd (plane_shape b)))%Z
      with true.
    + simpl. eexists. split; [reflexivity|].
      now apply (split_zip3_rows w h).
    + symmetry. destruct Hb as [Hbh Hbr]. unfold plane_shape.
      simpl fst. simpl snd. apply andb_true_iff. split; apply Z.ltb_lt.
      * lia.
      * destruct b as [|row b]; simpl in *; [lia|].
        apply Forall_cons_iff in Hbr. destruct Hbr as [Hrow _]. lia.
  - intros g r. reflexivity.
Qed.

Lemma split_merge_round_trip_witness :
  is_array four_pixels = true /\ merged four_pixels = Ok four_pixels.
Proof.
  split; [reflexivity|].
  apply (proj1 split_merge_round_trip four_pixels). reflexivity.
Defined.

Lemma zeros_map (roi : Raster) :
  is_array roi = true ->
  np_zeros (rows roi) (cols roi) = map (map (fun _ => 0%Z)) roi.
Proof.
  intros Ha. pose proof (is_array_rows _ Ha) as Hrows.
  unfold np_zeros, rows, cols. rewrite !Nat2Z.id.
  set (W := length (hd [] roi)) in *. clearbody W. clear Ha.
  induction roi as [|row roi IH]; simpl; [reflexivity|].
  apply Forall_cons_iff in Hrows. destruct Hrows as [Hrow Hrest].
  rewrite IH by assumption. f_equal.
  rewrite <- Hrow. clear. induction row; simpl; [reflexivity|now f_equal].
Qed.

(** Lines 226-230.  The three images built with the plane of zeros have the
    pixels of the source with two channels set to zero: (B, 0, 0), (0, G, 0)
    and (0, 0, R); none of the three merges raises. *)
Theorem single_channels_pixels :
  forall roi : Raster,
    is_array roi = true ->
    single_channels roi
    = Ok (map (map (fun p => (blue p, 0, 0)%Z)) roi,
          map (map (fun p => (0, green p, 0)%Z)) roi,
          map (map (fun p => (0, 0, red p)%Z)) roi).
Proof.
  intros roi Ha. unfold single_channels, cv2_split, shape.
  rewrite (zeros_map roi Ha).
  rewrite (merge_map blue (fun _ => 0%Z) (fun _ => 0%Z)) by assumption.
  simpl bind.
  rewrite (merge_map (fun _ => 0%Z) green (fun _ => 0%Z)) by assumption.
  simpl bind.
  rewrite (merge_map (fun _ => 0%Z) (fun _ => 0%Z) red) by assumption.
  reflexivity.
Qed.

Lemma single_channels_pixels_witness :
  is_array two_pixels = true /\
  single_channels two_pixels
  = Ok (map (map (fun p => (blue p, 0, 0)%Z)) two_pixels,
        map (map (fun p => (0, green p, 0)%Z)) two_pixels,
        map (map (fun p => (0, 0, red p)%Z)) two_pixels).
Proof.
  split; [reflexivity|].
  apply (single_channels_pixels two_pixels). reflexivity.
Defined.

(** ** Copies and assignments *)

Lemma nth_error_combine_seq {A : Type} (l : list A) (a i : nat) :
  nth_error (combine (seq a (length l)) l) i
  = option_map (fun x => ((a + i)%nat, x)) (nth_error l i).
Proof.
  revert a i. induction l as [|x l IH]; intros a i; simpl.
  - now destruct i.
  - destruct i as [|i]; simpl.
    + now rewrite Nat.add_0_r.
    + rewrite IH. now rewrite Nat.add_succ_r.
Qed.

Lemma pixel_at_update (img : Raster) (f : Z -> Z -> Pixel -> Pixel) (x y : Z) :
  pixel_at (update img f) x y = option_map (f x y) (pixel_at img x y).
Proof.
  unfold pixel_at.
  destruct ((0 <=? x) && (0 <=? y))%Z eqn:Hxy; [|reflexivity].
  apply andb_true_iff in Hxy. destruct Hxy as [Hx Hy].
  apply Z.leb_le in Hx, Hy.
  unfold update. rewrite nth_error_map, nth_error_combine_seq.
  destruct (nth_error img (Z.to_nat y)) as [row|]; simpl; [|reflexivity].
  rewrite nth_error_map, nth_error_combine_seq.
  destruct (nth_error row (Z.to_nat x)) as [p|]; simpl; [|reflexivity].
  now rewrite !Z2Nat.id by assumption.
Qed.

Lemma shape_update (img : Raster) (f : Z -> Z -> Pixel -> Pixel) :
  shape (update img f) = shape img.
Proof.
  unfold shape, rows, cols, update.
  rewrite length_map, length_combine, length_seq, Nat.min_id.
  destruct img as [|row img]; simpl; [reflexivity|].
  now rewrite length_map, length_combine, length_seq, Nat.min_id.
Qed.

Lemma length_store_set (s : store) (r : ref) (img : Raster) :
  (r < length s)%nat -> length (store_set s r img) = length s.
Proof.
  intros Hr. unfold store_set. rewrite length_app, length_firstn.
  change (length (img :: skipn (S r) s)) with (S (length (skipn (S r) s))).
  rewrite length_skipn. lia.
Qed.

Lemma deref_store_set_same (s : store) (r : ref) (img : Raster) :
  (r < length s)%nat -> deref (store_set s r img) r = img.
Proof.
  intros Hr. unfold deref, store_set.
  rewrite app_nth2; rewrite length_firstn; [|lia].
  replace (r - Nat.min r (length s))%nat with 0%nat by lia. reflexivity.
Qed.

Lemma deref_store_set_other (s : store) (r r' : ref) (img : Raster) :
  (r < length s)%nat -> r' <> r ->
  deref (store_set s r img) r' = deref s r'.
Proof.
  intros Hin Hne. unfold deref, store_set.
  destruct (Nat.lt_ge_cases r' r) as [Hlt|Hge].
  - rewrite app_nth1 by (rewrite length_firstn; lia).
    rewrite <- (firstn_skipn r s) at 2.
    now rewrite app_nth1 by (rewrite length_firstn; lia).
  - rewrite app_nth2; rewrite length_firstn; [|lia].
    replace (Nat.min r (length s)) with r by lia.
    destruct (r' - r)%nat as [|d] eqn:Hd; [lia|].
    change (nth (S d) (img :: skipn (S r) s) []) with (nth d (skipn (S r) s) []).
    rewrite <- (firstn_skipn (S r) s) at 2.
    rewrite app_nth2; rewrite length_firstn; [|lia].
    f_equal. lia.
Qed.

(** Lines 111-117.  The copy is a new array: painting it leaves the image,
    and every other array, as it was.  The copy keeps the shape of the
    image; its pixels are (255, 0, 0) on the rows 250..299 and columns
    50..99 that the image has, (0, 0, 255) at (0, 0), and those of the
    image everywhere else. *)
Theorem copy_is_independent :
  forall (image : ref) (s : store),
    (image < length s)%nat -> is_array (deref s image) = true ->
    exists (copy : ref) (s' : store),
      copy_and_paint image s = Some (copy, s') /\
      copy <> image /\
      (forall r : ref, (r < length s)%nat -> deref s' r = deref s r) /\
      shape (deref s' copy) = shape (deref s image) /\
      forall x y : Z,
        pixel_at (deref s' copy) x y
        = option_map
            (fun p =>
               if ((50 <=? x) && (x <? 100) && (250 <=? y) && (y <? 300))%Z
               then (255, 0, 0)%Z
               else if ((x =? 0) && (y =? 0))%Z then (0, 0, 255)%Z else p)
            (pixel_at (deref s image) x y).
Proof.
  intros image s Hi Ha. destruct (is_array_positive _ Ha) as [Hr Hc].
  unfold copy_and_paint. rewrite deref_new. unfold setitem_pixel.
  destruct (pixel_at_inside (deref s image) 0 0 Ha) as [p0 Hp0]; [lia|lia|].
  rewrite Hp0.
  set (img := deref s image) in *.
  set (painted := update img _).
  set (s1 := s ++ [img]).
  assert (Hl1 : (length s < length s1)%nat)
    by (unfold s1; rewrite length_app; simpl; lia).
  rewrite deref_store_set_same by assumption.
  set (final := setitem_slice painted 250 300 50 100 (255, 0, 0)%Z).
  exists (length s), (store_set (store_set s1 (length s) painted) (length s) final).
  split; [reflexivity|]. split; [lia|]. split; [|split].
  - intros r Hlt.
    rewrite !deref_store_set_other
      by (try rewrite length_store_set; try assumption; lia).
    unfold s1. now apply deref_app.
  - rewrite deref_store_set_same by (rewrite length_store_set; assumption).
    unfold final, setitem_slice, painted. now rewrite !shape_update.
  - intros x y.
    rewrite deref_store_set_same by (rewrite length_store_set; assumption).
    unfold final, setitem_slice, painted. rewrite !pixel_at_update.
    destruct (pixel_at img x y) as [p|]; reflexivity.
Qed.

Lemma copy_is_independent_witness :
  (0 < length [two_pixels])%nat /\ is_array (deref [two_pixels] 0%nat) = true /\
  exists (copy : ref) (s' : store),
    copy_and_paint 0%nat [two_pixels] = Some (copy, s') /\ copy <> 0%nat.
Proof.
  split; [simpl; lia|]. split; [reflexivity|].
  destruct (copy_is_independent 0%nat [two_pixels] (Nat.lt_0_succ 0) eq_refl)
    as [copy [s' [H1 [H2 _]]]].
  exists copy, s'. split; assumption.
Defined.

(** * Histograms *)

Lemma length_bins (values : list Z) : length (bins values) = 256%nat.
Proof. unfold bins, counts. now rewrite !length_map, length_seq. Qed.

(** The counts that float32 holds exactly. *)
Lemma float32_exact (n : Z) : (n <= 16777216)%Z -> float32 n = n.
Proof.
  intros Hn. unfold float32.
  destruct (Z.ltb_spec n 16777216) as [Hlt|Hge]; [reflexivity|].
  assert (n = 16777216%Z) by lia. subst n. reflexivity.
Qed.

(** Beyond 2^24 a bin is rounded: 2^24 + 8193 pixels of one value are
    reported as 2^24 + 8192. *)
Example float32_rounds : float32 16785409 = 16785408%Z.
Proof. reflexivity. Qed.

(** And so is a sum: three bins of 5593225 add up to 16779676. *)
Example float32_sum_rounds :
  float32 (float32 (5593225 + 5593225) + 5593225) = 16779676%Z.
Proof. reflexivity. Qed.

Lemma occurrences_bound (values : list Z) (i : Z) :
  (0 <= occurrences values i <= Z.of_nat (length values))%Z.
Proof.
  unfold occurrences. pose proof (count_occ_bound Z.eq_dec i values). lia.
Qed.

Lemma bins_exact (values : list Z) :
  (Z.of_nat (length values) <= 16777216)%Z -> bins values = counts values.
Proof.
  intros Hl. unfold bins, counts. rewrite map_map. apply map_ext.
  intros i. apply float32_exact.
  pose proof (occurrences_bound values (Z.of_nat i)). lia.
Qed.

Lemma occurrences_cons (v : Z) (values : list Z) (i : Z) :
  occurrences (v :: values) i
  = (occurrences values i + if (v =? i)%Z then 1 else 0)%Z.
Proof.
  unfold occurrences. destruct (Z.eqb_spec v i) as [He|Hne].
  - rewrite count_occ_cons_eq by assumption. lia.
  - rewrite count_occ_cons_neq by assumption. lia.
Qed.

(** Over a range of bins, one more value adds one to the total when the
    value falls in the range and nothing when it does not. *)
Lemma total_bins_cons (v : Z) (values : list Z) (n a : nat) :
  total (map (fun i => occurrences (v :: values) (Z.of_nat i)) (seq a n))
  = (total (map (fun i => occurrences values (Z.of_nat i)) (seq a n))
     + if ((Z.of_nat a <=? v) && (v <? Z.of_nat (a + n)))%Z then 1 else 0)%Z.
Proof.
  revert a. induction n as [|n IH]; intros a.
  - simpl. rewrite Nat.add_0_r.
    destruct (Z.leb_spec (Z.of_nat a) v), (Z.ltb_spec v (Z.of_nat a));
      simpl; lia.
  - simpl seq. simpl map. unfold total in *. simpl fold_right.
    rewrite IH, occurrences_cons.
    replace (Z.of_nat (a + S n)) with (Z.of_nat (S a + n)) by lia.
    destruct (Z.eqb_spec v (Z.of_nat a)),
      (Z.leb_spec (Z.of_nat a) v), (Z.ltb_spec v (Z.of_nat (S a + n))),
      (Z.leb_spec (Z.of_nat (S a)) v); simpl; lia.
Qed.

Lemma total_counts (values : list Z) :
  Forall (fun v => (0 <= v < 256)%Z) values ->
  total (counts values) = Z.of_nat (length values).
Proof.
  unfold counts. induction values as [|v values IH]; intros Hv.
  - unfold occurrences. simpl count_occ.
    assert (H : forall l : list nat, total (map (fun _ => Z.of_nat 0) l) = 0%Z)
      by (induction l; simpl; [reflexivity|assumption]).
    apply H.
  - apply Forall_cons_iff in Hv. destruct Hv as [Hv0 Hv].
    rewrite total_bins_cons, IH by assumption.
    replace ((Z.of_nat 0 <=? v) && (v <? Z.of_nat (0 + 256)))%Z with true.
    + simpl length. lia.
    + symmetry. apply andb_true_iff. split; [apply Z.leb_le|apply Z.ltb_lt];
        simpl; lia.
Qed.

Lemma total_bins (values : list Z) :
  Forall (fun v => (0 <= v < 256)%Z) values ->
  (Z.of_nat (length values) <= 16777216)%Z ->
  total (bins values) = Z.of_nat (length values).
Proof.
  intros Hv Hl. rewrite bins_exact by assumption. now apply total_counts.
Qed.

Lemma length_selected_le (gray mask : Plane) :
  (length (selected gray mask) <= length (concat gray))%nat.
Proof.
  revert mask. unfold selected.
  induction gray as [|grow gray IH]; intros [|mrow mask]; simpl; try lia.
  rewrite !length_app, length_map. specialize (IH mask).
  pose proof (filter_length_le
                (fun vm : Z * Z => negb (snd vm =? 0)%Z) (combine grow mrow)).
  pose proof (length_combine grow mrow). lia.
Qed.

Lemma is_uint8_concat (p : Plane) :
  is_uint8 p = true -> Forall (fun v => (0 <= v < 256)%Z) (concat p).
Proof.
  unfold is_uint8. intros H. rewrite forallb_forall in H.
  apply Forall_forall. intros v Hin. apply in_concat in Hin.
  destruct Hin as [row [Hrow Hv]]. specialize (H row Hrow).
  rewrite forallb_forall in H. specialize (H v Hv).
  apply andb_true_iff in H. destruct H as [H1 H2].
  apply Z.leb_le in H1. apply Z.ltb_lt in H2. lia.
Qed.

Lemma length_concat_plane (w h : nat) (p : Plane) :
  is_plane w h p -> length (concat p) = (w * h)%nat.
Proof.
  intros [Hh Hr]. subst h. induction p as [|row p IH]; simpl; [lia|].
  apply Forall_cons_iff in Hr. destruct Hr as [Hrow Hr].
  rewrite length_app, IH by assumption. rewrite Hrow. lia.
Qed.

(** The positions a mask selects. *)
Lemma length_selected_row (grow mrow : list Z) :
  length grow = length mrow ->
  length (filter (fun vm : Z * Z => negb (snd vm =? 0)%Z) (combine grow mrow))
  = length (filter (fun m => negb (m =? 0)%Z) mrow).
Proof.
  revert mrow. induction grow as [|g grow IH]; intros [|m mrow] Hl;
    simpl in *; try discriminate; [reflexivity|].
  destruct (m =? 0)%Z; simpl; rewrite IH by lia; reflexivity.
Qed.

Lemma length_selected (w h : nat) (gray mask : Plane) :
  is_plane w h gray -> is_plane w h mask ->
  length (selected gray mask)
  = length (filter (fun m => negb (m =? 0)%Z) (concat mask)).
Proof.
  revert h mask. unfold selected.
  induction gray as [|grow gray IH]; intros h [|mrow mask] [Hg Hgr] [Hm Hmr];
    simpl in *; try reflexivity; try (subst h; discriminate).
  apply Forall_cons_iff in Hgr, Hmr.
  destruct Hgr as [Hgrow Hgr], Hmr as [Hmrow Hmr].
  rewrite filter_app, !length_app, length_map.
  rewrite length_selected_row by congruence.
  f_equal. apply (IH (length gray)); split; try assumption;
    try reflexivity; lia.
Qed.

Lemma selected_in (gray mask : Plane) (v : Z) :
  In v (selected gray mask) -> In v (concat gray).
Proof.
  revert mask. unfold selected.
  induction gray as [|grow gray IH]; intros [|mrow mask]; simpl;
    try contradiction.
  intros Hin. apply in_app_iff in Hin. apply in_app_iff.
  destruct Hin as [Hin|Hin].
  - left. apply in_map_iff in Hin. destruct Hin as [[g m] [<- Hin]].
    apply filter_In in Hin. destruct Hin as [Hin _].
    apply in_combine_l in Hin. exact Hin.
  - right. now apply (IH mask).
Qed.

Lemma selected_uint8 (gray mask : Plane) :
  is_uint8 gray = true ->
  Forall (fun v => (0 <= v < 256)%Z) (selected gray mask).
Proof.
  intros Hu. pose proof (is_uint8_concat gray Hu) as Hc.
  rewrite Forall_forall in *. intros v Hin. apply Hc.
  now apply (selected_in gray mask).
Qed.

(** Lines 94, 116 and 216.  The histogram of a plane of bytes has 256
    bins; when the plane has at most 2^24 pixels, so that every count is
    exact in float32, the bins add up to the number of pixels of the
    plane: every pixel is counted once. *)
Theorem histogram_counts_every_pixel :
  forall (w h : nat) (gray : Plane),
    is_plane w h gray -> is_uint8 gray = true ->
    (Z.of_nat w * Z.of_nat h <= 16777216)%Z ->
    exists hist,
      cv2_calcHist gray None = Ok hist /\
      length hist = 256%nat /\
      total hist = (Z.of_nat w * Z.of_nat h)%Z.
Proof.
  intros w h gray Hp Hu Hn. unfold cv2_calcHist. eexists.
  split; [reflexivity|]. split; [apply length_bins|].
  assert (Hl : Z.of_nat (length (concat gray)) = (Z.of_nat w * Z.of_nat h)%Z)
    by (rewrite (length_concat_plane w h) by assumption; lia).
  rewrite total_bins; [exact Hl|now apply is_uint8_concat|lia].
Qed.

Lemma histogram_counts_every_pixel_witness :
  is_plane 2 1 [[3; 3]]%Z /\ is_uint8 [[3; 3]]%Z = true /\
  (Z.of_nat 2 * Z.of_nat 1 <= 16777216)%Z /\
  exists hist,
    cv2_calcHist [[3; 3]]%Z None = Ok hist /\
    length hist = 256%nat /\
    total hist = (Z.of_nat 2 * Z.of_nat 1)%Z.
Proof.
  assert (Hp : is_plane 2 1 [[3; 3]]%Z)
    by (split; [reflexivity|repeat constructor]).
  assert (Hn : (Z.of_nat 2 * Z.of_nat 1 <= 16777216)%Z)
    by (vm_compute; discriminate).
  split; [exact Hp|]. split; [reflexivity|]. split; [exact Hn|].
  apply (histogram_counts_every_pixel 2 1 [[3; 3]]%Z Hp eq_refl Hn).
Defined.

(** Lines 160-162.  With a mask of the size of the image, and an image of
    at most 2^24 pixels, the bins of the histogram add up to the number of
    pixels where the mask is not zero; with a mask of another size the call
    raises [cv2.error]. *)
Theorem masked_histogram_counts_mask :
  (forall (w h : nat) (gray mask : Plane),
      is_plane w h gray -> is_plane w h mask -> is_uint8 gray = true ->
      (Z.of_nat w * Z.of_nat h <= 16777216)%Z ->
      exists hist,
        cv2_calcHist gray (Some mask) = Ok hist /\
        length hist = 256%nat /\
        total hist
        = Z.of_nat (length (filter (fun m => negb (m =? 0)%Z) (concat mask)))) /\
  (forall gray mask : Plane,
      plane_shape gray <> plane_shape mask ->
      cv2_calcHist gray (Some mask) = Raise cv2_error).
Proof.
  split.
  - intros w h gray mask Hg Hm Hu Hn. unfold cv2_calcHist.
    rewrite (is_plane_same_shape w h gray mask) by assumption.
    eexists. split; [reflexivity|]. split; [apply length_bins|].
    rewrite total_bins.
    + now rewrite (length_selected w h).
    + now apply selected_uint8.
    + pose proof (length_selected_le gray mask).
      rewrite (length_concat_plane w h) in * by assumption. lia.
  - intros gray mask Hne. unfold cv2_calcHist.
    destruct (same_shape gray mask) eqn:Hs; [|reflexivity].
    exfalso. apply Hne. unfold same_shape in Hs.
    apply andb_true_iff in Hs. destruct Hs as [H1 H2].
    apply Z.eqb_eq in H1, H2.
    destruct (plane_shape gray), (plane_shape mask). simpl in *. congruence.
Qed.

Lemma masked_histogram_counts_mask_witness :
  is_plane 2 1 [[3; 4]]%Z /\ is_plane 2 1 [[255; 0]]%Z /\
  is_uint8 [[3; 4]]%Z = true /\
  (Z.of_nat 2 * Z.of_nat 1 <= 16777216)%Z /\
  exists hist,
    cv2_calcHist [[3; 4]]%Z (Some [[255; 0]]%Z) = Ok hist /\
    length hist = 256%nat /\
    total hist
    = Z.of_nat (length (filter (fun m => negb (m =? 0)%Z)
                               (concat [[255; 0]]%Z))).
Proof.
  assert (H : forall a b : Z, is_plane 2 1 [[a; b]])
    by (intros a b; split; [reflexivity|repeat constructor]).
  assert (Hn : (Z.of_nat 2 * Z.of_nat 1 <= 16777216)%Z)
    by (vm_compute; discriminate).
  split; [apply H|]. split; [apply H|]. split; [reflexivity|].
  split; [exact Hn|].
  apply (proj1 masked_histogram_counts_mask 2%nat 1%nat); try apply H.
  - reflexivity.
  - exact Hn.
Defined.

(** ** The three masks *)

Lemma is_plane_band_mask (heigh width y0 y1 : Z) :
  is_plane (Z.to_nat width) (Z.to_nat heigh) (band_mask heigh width y0 y1).
Proof.
  unfold band_mask. split.
  - now rewrite length_map, length_seq.
  - apply Forall_forall. intros row Hin. apply in_map_iff in Hin.
    destruct Hin as [y [<- _]]. apply repeat_length.
Qed.

Lemma filter_repeat (c : Z) (n : nat) :
  length (filter (fun m => negb (m =? 0)%Z) (repeat c n))
  = if (c =? 0)%Z then 0%nat else n.
Proof.
  induction n as [|n IH]; simpl.
  - now destruct (c =? 0)%Z.
  - destruct (c =? 0)%Z eqn:Hc; simpl; rewrite IH; reflexivity.
Qed.

(** The number of pixels a band selects: the width times the number of
    rows of the image that lie in the band. *)
Lemma band_mask_count (W : nat) (y0 y1 : Z) (n a : nat) :
  Z.of_nat
    (length
       (filter (fun m => negb (m =? 0)%Z)
          (concat
             (map (fun y =>
                     repeat (if ((y0 <=? Z.of_nat y) && (Z.of_nat y <? y1))%Z
                             then 255%Z else 0%Z) W)
                  (seq a n)))))
  = (Z.of_nat W
     * Z.max 0 (Z.min y1 (Z.of_nat (a + n)) - Z.max y0 (Z.of_nat a)))%Z.
Proof.
  revert a. induction n as [|n IH]; intros a.
  - simpl. rewrite Nat.add_0_r. lia.
  - simpl seq. simpl map. simpl concat.
    rewrite filter_app, length_app, Nat2Z.inj_add, IH, filter_repeat.
    replace (Z.of_nat (a + S n)) with (Z.of_nat (S a + n)) by lia.
    destruct (Z.leb_spec y0 (Z.of_nat a)), (Z.ltb_spec (Z.of_nat a) y1);
      simpl andb; cbv iota.
    + change (255 =? 0)%Z with false. cbv iota.
      replace (Z.max 0 (Z.min y1 (Z.of_nat (S a + n)) - Z.max y0 (Z.of_nat a)))
        with (1 + Z.max 0 (Z.min y1 (Z.of_nat (S a + n))
                           - Z.max y0 (Z.of_nat (S a))))%Z by lia.
      lia.
    + change (0 =? 0)%Z with true. cbv iota.
      replace (Z.max 0 (Z.min y1 (Z.of_nat (S a + n)) - Z.max y0 (Z.of_nat a)))
        with 0%Z by lia.
      replace (Z.max 0 (Z.min y1 (Z.of_nat (S a + n))
                        - Z.max y0 (Z.of_nat (S a)))) with 0%Z by lia.
      lia.
    + change (0 =? 0)%Z with true. cbv iota.
      replace (Z.max 0 (Z.min y1 (Z.of_nat (S a + n)) - Z.max y0 (Z.of_nat a)))
        with (Z.max 0 (Z.min y1 (Z.of_nat (S a + n))
                       - Z.max y0 (Z.of_nat (S a)))) by lia.
      lia.
    + change (0 =? 0)%Z with true. cbv iota.
      replace (Z.max 0 (Z.min y1 (Z.of_nat (S a + n)) - Z.max y0 (Z.of_nat a)))
        with (Z.max 0 (Z.min y1 (Z.of_nat (S a + n))
                       - Z.max y0 (Z.of_nat (S a)))) by lia.
      lia.
Qed.

Lemma band_histogram_total (heigh width y0 y1 : Z) (gray : Plane) :
  is_plane (Z.to_nat width) (Z.to_nat heigh) gray -> is_uint8 gray = true ->
  (Z.of_nat (Z.to_nat width) * Z.of_nat (Z.to_nat heigh) <= 16777216)%Z ->
  exists hist,
    cv2_calcHist gray (Some (band_mask heigh width y0 y1)) = Ok hist /\
    total hist
    = (Z.of_nat (Z.to_nat width)
       * Z.max 0 (Z.min y1 (Z.of_nat (Z.to_nat heigh)) - Z.max y0 0))%Z.
Proof.
  intros Hg Hu Hn. unfold cv2_calcHist.
  rewrite (is_plane_same_shape _ _ gray _ Hg (is_plane_band_mask _ _ _ _)).
  eexists. split; [reflexivity|].
  rewrite total_bins.
  - rewrite (length_selected _ _ gray _ Hg (is_plane_band_mask _ _ _ _)).
    unfold band_mask. now rewrite band_mask_count.
  - now apply selected_uint8.
  - pose proof (length_selected_le gray (band_mask heigh width y0 y1)).
    rewrite (length_concat_plane _ _ _ Hg) in *. lia.
Qed.

(** Lines 150-162.  On an image of at least 291 rows and at most 2^24
    pixels the three masks select the rows 0..98, 102..287 and
    291..heigh-1, and the three histograms count together
    width * (heigh - 6) pixels: the rows 99..101 and 288..290 are counted
    in none of them. *)
Theorem three_masks_skip_six_rows :
  forall (heigh width : Z) (gray : Plane),
    (291 <= heigh)%Z -> (0 <= width)%Z ->
    (width * heigh <= 16777216)%Z ->
    is_plane (Z.to_nat width) (Z.to_nat heigh) gray -> is_uint8 gray = true ->
    exists hist1 hist2 hist3,
      cv2_calcHist gray (Some (mask1 heigh width)) = Ok hist1 /\
      cv2_calcHist gray (Some (mask2 heigh width)) = Ok hist2 /\
      cv2_calcHist gray (Some (mask3 heigh width)) = Ok hist3 /\
      total hist1 = (width * 99)%Z /\
      total hist2 = (width * 186)%Z /\
      total hist3 = (width * (heigh - 291))%Z /\
      (total hist1 + total hist2 + total hist3 = width * (heigh - 6))%Z.
Proof.
  intros heigh width gray Hh Hw Hn Hg Hu. unfold mask1, mask2, mask3.
  assert (Hn' : (Z.of_nat (Z.to_nat width) * Z.of_nat (Z.to_nat heigh)
                 <= 16777216)%Z) by (rewrite !Z2Nat.id by lia; exact Hn).
  destruct (band_histogram_total heigh width 0 99 gray Hg Hu Hn')
    as [h1 [E1 T1]].
  destruct (band_histogram_total heigh width 102 288 gray Hg Hu Hn')
    as [h2 [E2 T2]].
  destruct (band_histogram_total heigh width 291 heigh gray Hg Hu Hn')
    as [h3 [E3 T3]].
  rewrite !Z2Nat.id in T1, T2, T3 by lia.
  exists h1, h2, h3. repeat split; try assumption.
  - rewrite T1. f_equal. lia.
  - rewrite T2. f_equal. lia.
  - rewrite T3. f_equal. lia.
  - rewrite T1, T2, T3.
    replace (Z.max 0 (Z.min 99 heigh - Z.max 0 0)) with 99%Z by lia.
    replace (Z.max 0 (Z.min 288 heigh - Z.max 102 0)) with 186%Z by lia.
    replace (Z.max 0 (Z.min heigh heigh - Z.max 291 0))
      with (heigh - 291)%Z by lia.
    ring.
Qed.

Lemma three_masks_skip_six_rows_witness :
  (291 <= 292)%Z /\ (0 <= 1)%Z /\ (1 * 292 <= 16777216)%Z /\
  is_plane (Z.to_nat 1) (Z.to_nat 292) (repeat [7%Z] 292) /\
  is_uint8 (repeat [7%Z] 292) = true /\
  exists hist1 hist2 hist3,
    cv2_calcHist (repeat [7%Z] 292) (Some (mask1 292 1)) = Ok hist1 /\
    cv2_calcHist (repeat [7%Z] 292) (Some (mask2 292 1)) = Ok hist2 /\
    cv2_calcHist (repeat [7%Z] 292) (Some (mask3 292 1)) = Ok hist3 /\
    total hist1 = (1 * 99)%Z /\
    total hist2 = (1 * 186)%Z /\
    total hist3 = (1 * (292 - 291))%Z /\
    (total hist1 + total hist2 + total hist3 = 1 * (292 - 6))%Z.
Proof.
  assert (Hp : is_plane (Z.to_nat 1) (Z.to_nat 292) (repeat [7%Z] 292)).
  { split; [apply repeat_length|]. apply Forall_forall. intros row Hin.
    apply repeat_spec in Hin. now subst. }
  assert (Hu : is_uint8 (repeat [7%Z] 292) = true) by (vm_compute; reflexivity).
  assert (Hn : (1 * 292 <= 16777216)%Z) by (vm_compute; discriminate).
  split; [lia|]. split; [lia|]. split; [exact Hn|]. split; [exact Hp|].
  split; [exact Hu|].
  apply (three_masks_skip_six_rows 292 1 (repeat [7%Z] 292));
    [lia|lia|exact Hn|exact Hp|exact Hu].
Defined.

(** ** The histogram of the three channels *)

Lemma total_sum3 (a b c : list Z) :
  length a = length b -> length a = length c ->
  total (map (fun bgr : Z * Z * Z => (fst (fst bgr) + snd (fst bgr) + snd bgr)%Z)
             (combine (combine a b) c))
  = (total a + total b + total c)%Z.
Proof.
  revert b c. unfold total.
  induction a as [|x a IH]; intros [|y b] [|z c] Hb Hc; simpl in *;
    try discriminate; [reflexivity|].
  rewrite IH by lia. lia.
Qed.

Lemma is_plane_channel (f : Pixel -> Z) (img : Raster) :
  is_array img = true ->
  is_plane (length (hd [] img)) (length img) (map (map f) img).
Proof.
  intros Ha. pose proof (is_array_rows _ Ha) as Hr. split.
  - apply length_map.
  - rewrite Forall_forall in *. intros row Hin. apply in_map_iff in Hin.
    destruct Hin as [row' [<- Hin]]. rewrite length_map. now apply Hr.
Qed.

Lemma counts_bound (values : list Z) (x : Z) :
  In x (counts values) -> (0 <= x <= Z.of_nat (length values))%Z.
Proof.
  unfold counts. intros Hin. apply in_map_iff in Hin.
  destruct Hin as [i [<- _]]. apply occurrences_bound.
Qed.

(** Lines 208-212.  For an image whose channels are bytes and that has at
    most 2^24 / 3 pixels, so that the counts and their sums are exact in
    float32, the sum of the histograms of the three channels has 256 bins
    that add up to three times the number of pixels. *)
Theorem rgb_hist_total :
  forall image : Raster,
    is_array image = true ->
    is_uint8 (map (map blue) image) = true ->
    is_uint8 (map (map green) image) = true ->
    is_uint8 (map (map red) image) = true ->
    (3 * (rows image * cols image) <= 16777216)%Z ->
    exists hist,
      rgb_hist image = Ok hist /\ length hist = 256%nat /\
      total hist = (3 * (rows image * cols image))%Z.
Proof.
  intros image Ha Hb Hg Hr Hn.
  destruct (is_array_positive _ Ha) as [Hrows Hcols].
  assert (Hl : forall f : Pixel -> Z,
             Z.of_nat (length (concat (map (map f) image)))
             = (rows image * cols image)%Z).
  { intros f.
    rewrite (length_concat_plane _ _ _ (is_plane_channel f image Ha)).
    unfold rows, cols. lia. }
  set (B := concat (map (map blue) image)) in *.
  set (G := concat (map (map green) image)) in *.
  set (R := concat (map (map red) image)) in *.
  pose proof (Hl blue) as HlB. pose proof (Hl green) as HlG.
  pose proof (Hl red) as HlR. fold B in HlB. fold G in HlG. fold R in HlR.
  exists (map (fun bgr : Z * Z * Z =>
                 float32 (float32 (fst (fst bgr) + snd (fst bgr)) + snd bgr)%Z)
              (combine (combine (bins B) (bins G)) (bins R))).
  split; [reflexivity|]. split.
  - rewrite length_map, !length_combine, !length_bins. reflexivity.
  - rewrite !bins_exact by lia.
    rewrite (map_ext_in _
               (fun bgr : Z * Z * Z =>
                  (fst (fst bgr) + snd (fst bgr) + snd bgr)%Z)).
    + rewrite total_sum3 by (unfold counts; now rewrite !length_map).
      rewrite !total_counts by (now apply is_uint8_concat). lia.
    + intros [[b g] r] Hin. simpl fst. simpl snd.
      pose proof (in_combine_r _ _ _ _ Hin) as Hr'.
      pose proof (in_combine_l _ _ _ _ Hin) as Hbg.
      pose proof (in_combine_l _ _ _ _ Hbg) as Hb'.
      pose proof (in_combine_r _ _ _ _ Hbg) as Hg'.
      apply counts_bound in Hb', Hg', Hr'.
      rewrite (float32_exact (b + g)) by lia. apply float32_exact. lia.
Qed.

Lemma rgb_hist_total_witness :
  is_array two_pixels = true /\
  is_uint8 (map (map blue) two_pixels) = true /\
  is_uint8 (map (map green) two_pixels) = true /\
  is_uint8 (map (map red) two_pixels) = true /\
  (3 * (rows two_pixels * cols two_pixels) <= 16777216)%Z /\
  exists hist,
    rgb_hist two_pixels = Ok hist /\ length hist = 256%nat /\
    total hist = (3 * (rows two_pixels * cols two_pixels))%Z.
Proof.
  assert (Hn : (3 * (rows two_pixels * cols two_pixels) <= 16777216)%Z)
    by (vm_compute; discriminate).
  split; [reflexivity|]. split; [reflexivity|]. split; [reflexivity|].
  split; [reflexivity|]. split; [exact Hn|].
  apply (rgb_hist_total two_pixels); try reflexivity. exact Hn.
Defined.

(** ** The guards of the histogram script *)

(** Lines 69-78, 139-142 and 199-202.  FileNotFoundError is raised for the
    first of contrast1.jpg, contrast2.jpg and contrast3.jpg that cannot be
    read, and for nothing else: when these three are read, the guard after
    the fourth read passes whether or not bgr-led.jpg was read, because it
    tests [variable_contrast]. *)
Theorem loaded_guards :
  forall imread : string -> option Raster,
    (forall e, loaded imread = Raise e ->
               (e = FileNotFoundError image1_path /\
                imread image1_path = None) \/
               (e = FileNotFoundError image2_path /\
                imread image1_path <> None /\ imread image2_path = None) \/
               (e = FileNotFoundError image3_path /\
                imread image1_path <> None /\ imread image2_path <> None /\
                imread image3_path = None)) /\
    (forall low high variable,
        imread image1_path = Some low -> imread image2_path = Some high ->
        imread image3_path = Some variable ->
        loaded imread = Ok (low, high, variable, imread image4_path)).
Proof.
  intros imread. unfold loaded. split.
  - intros e.
    destruct (imread image1_path) as [low|];
      [|intros H; inversion H; now left].
    destruct (imread image2_path) as [high|];
      [|intros H; inversion H; right; left; repeat split; congruence].
    destruct (imread image3_path) as [variable|];
      [discriminate|].
    intros H; inversion H. right; right. repeat split; congruence.
  - intros low high variable H1 H2 H3. now rewrite H1, H2, H3.
Qed.

Lemma loaded_guards_witness :
  led_missing image1_path = Some one_pixel /\
  led_missing image2_path = Some one_pixel /\
  led_missing image3_path = Some one_pixel /\
  led_missing image4_path = None /\
  loaded led_missing = Ok (one_pixel, one_pixel, one_pixel, None).
Proof.
  split; [reflexivity|]. split; [reflexivity|]. split; [reflexivity|].
  split; [reflexivity|].
  apply (proj2 (loaded_guards led_missing) one_pixel one_pixel one_pixel);
    reflexivity.
Defined.
